(** * pool-lights: the DS3231 clock driver and the LED sketch

    A shallow embedding of [DS3231.h] (BCD conversion, the two-wire bus
    transactions with the DS3231 real-time clock, the temperature read, the
    system-time update) and of the sketch's [loop()] (the debounced button and
    the chase animation), with the properties of the specification proved
    about the embedding.

    The target is an 8-bit AVR board: [byte] and [uint8_t] are 8 bits, [int8_t]
    is 8 bits signed, [int] is 16 bits signed and [unsigned long] is 32 bits.
    Machine integers are values of [Z]; every conversion and every arithmetic
    result that the C code stores in a narrower type is written out with the
    wrap-around of that type. *)

From Stdlib Require Import String.
From Stdlib Require Import ZArith List Bool Lia QArith.
Import ListNotations.
Local Open Scope Z_scope.

(** ** Machine integers *)

Module Mach.

(** Conversion to [byte] / [uint8_t]. *)
Definition to_byte (z : Z) : Z := z mod 256.

(** Conversion to the 16-bit [int]. *)
Definition to_int (z : Z) : Z := (z + 32768) mod 65536 - 32768.

(** Conversion to [int8_t]. *)
Definition to_int8 (z : Z) : Z := (z + 128) mod 256 - 128.

(** Conversion to the 32-bit [unsigned long]. *)
Definition to_ulong (z : Z) : Z := z mod 4294967296.

Definition is_byte (z : Z) : Prop := 0 <= z < 256.

End Mach.

Import Mach.

(** A bounded universal quantifier over [lo, lo + n), checked by evaluation. *)
Fixpoint forall_from (lo : Z) (n : nat) (p : Z -> bool) : bool :=
  match n with
  | O => true
  | S k => p lo && forall_from (lo + 1) k p
  end.

(** ** The environment: the Wire bus and the Time library

    [Wire] (the board's two-wire bus library) and [setTime] (the Time library)
    are not part of the repository.  They are modelled by what the calls of
    [DS3231.h] do to the outside world: every call on the bus is appended to a
    log, [requestFrom] moves the bytes that the addressed device delivers into
    the receive buffer, [read] takes the next byte of that buffer (or returns
    [-1] when it is empty), and [setTime] records the calendar fields it is
    given. *)

Module Env.

Inductive BusOp : Type :=
| BeginTransmission (address : Z)
| Write (data : Z)
| EndTransmission
| RequestFrom (address : Z) (quantity : Z)
| Read (value : Z).

(** The arguments of a call [setTime(hr, min, sec, dy, mnth, yr)]. *)
Record SetTime : Type := mkSetTime {
  st_hr : Z; st_min : Z; st_sec : Z; st_day : Z; st_month : Z; st_year : Z
}.

Record World : Type := mkWorld {
  rxBuffer : list Z;          (* bytes received, not read yet *)
  slave : list Z;             (* bytes the device will deliver, in order *)
  busLog : list BusOp;        (* bus calls so far, oldest first *)
  systemTime : option SetTime (* the last [setTime], if any *)
}.

(** Programs that act on the world. *)
Definition IO (A : Type) : Type := World -> A * World.

Definition ret {A} (a : A) : IO A := fun w => (a, w).

Definition bind {A B} (m : IO A) (k : A -> IO B) : IO B :=
  fun w => let (a, w') := m w in k a w'.

Definition exec {A} (m : IO A) (w : World) : World := snd (m w).
Definition eval {A} (m : IO A) (w : World) : A := fst (m w).

Definition logged (op : BusOp) (w : World) : World :=
  mkWorld (rxBuffer w) (slave w) (busLog w ++ [op]) (systemTime w).

Definition beginTransmission (address : Z) : IO unit :=
  fun w => (tt, logged (BeginTransmission address) w).

(** [Wire.write(uint8_t)]. *)
Definition write (data : Z) : IO unit :=
  fun w => (tt, logged (Write (to_byte data)) w).

Definition endTransmission : IO unit :=
  fun w => (tt, logged EndTransmission w).

Definition requestFrom (address quantity : Z) : IO unit :=
  fun w =>
    let n := Z.to_nat quantity in
    (tt, mkWorld (firstn n (slave w)) (skipn n (slave w))
                 (busLog w ++ [RequestFrom address quantity]) (systemTime w)).

(** [int Wire.read()]. *)
Definition read : IO Z :=
  fun w =>
    match rxBuffer w with
    | [] => (-1, logged (Read (-1)) w)
    | b :: rest =>
        (b, mkWorld rest (slave w) (busLog w ++ [Read b]) (systemTime w))
    end.

Definition setTime (hr mi sec dy mnth yr : Z) : IO unit :=
  fun w =>
    (tt, mkWorld (rxBuffer w) (slave w) (busLog w)
                 (Some (mkSetTime hr mi sec dy mnth yr))).

(** A world in which the device is about to deliver [bytes]. *)
Definition delivering (bytes : list Z) (w : World) : World :=
  mkWorld (rxBuffer w) bytes (busLog w) (systemTime w).

Definition power_on : World := mkWorld [] [] [] None.

End Env.

Import Env.

Declare Scope io_scope.
Delimit Scope io_scope with io.
Notation "x <- m ;; k" := (bind m (fun x => k))
  (at level 61, m at next level, right associativity) : io_scope.
Notation "m ;; k" := (bind m (fun _ => k))
  (at level 61, right associativity) : io_scope.

(** ** DS3231.h *)

Module DS3231.

Definition DS3231_I2C_ADDRESS : Z := 0x68.
Definition DS3231_TEMPERATURE_ADDR : Z := 0x11.

(** [byte decToBcd(byte val)]: the operands are promoted to [int], the result
    is converted back to [byte]. *)
Definition decToBcd (val : Z) : Z :=
  to_byte ((val / 10 * 16) + (val mod 10)).

(** [byte bcdToDec(byte val)]. *)
Definition bcdToDec (val : Z) : Z :=
  to_byte ((val / 16 * 10) + (val mod 16)).

Definition setDS3231time
    (second minute hour dayOfWeek dayOfMonth month year : Z) : IO unit :=
  (beginTransmission DS3231_I2C_ADDRESS ;;
   write 0 ;;
   write (decToBcd second) ;;
   write (decToBcd minute) ;;
   write (decToBcd hour) ;;
   write (decToBcd dayOfWeek) ;;
   write (decToBcd dayOfMonth) ;;
   write (decToBcd month) ;;
   write (decToBcd year) ;;
   endTransmission)%io.

(** The seven out-parameters of [readDS3231time]. *)
Record RtcTime : Type := mkRtcTime {
  second : Z; minute : Z; hour : Z;
  dayOfWeek : Z; dayOfMonth : Z; month : Z; year : Z
}.

(** [bcdToDec] takes a [byte]: the [int] that [Wire.read()] returns, masked or
    not, is converted on the call. *)
Definition readDS3231time : IO RtcTime :=
  (beginTransmission DS3231_I2C_ADDRESS ;;
   write 0 ;;
   endTransmission ;;
   requestFrom DS3231_I2C_ADDRESS 7 ;;
   r0 <- read ;;
   r1 <- read ;;
   r2 <- read ;;
   r3 <- read ;;
   r4 <- read ;;
   r5 <- read ;;
   r6 <- read ;;
   ret (mkRtcTime (bcdToDec (to_byte (Z.land r0 0x7f)))
                  (bcdToDec (to_byte r1))
                  (bcdToDec (to_byte (Z.land r2 0x3f)))
                  (bcdToDec (to_byte r3))
                  (bcdToDec (to_byte r4))
                  (bcdToDec (to_byte r5))
                  (bcdToDec (to_byte r6))))%io.

(** The conversion [(byte) x] of a floating-point value: the fraction is
    dropped (rounding toward zero) and the low eight bits of the integer are
    kept.  C leaves the conversion of a value below zero to an unsigned type
    open; keeping the low byte is what the board's compiler does. *)
Definition double_to_byte (x : Q) : Z :=
  to_byte (Z.quot (Qnum x) (Z.pos (Qden x))).

(** The sign extension of the whole-degree byte, lines 70 to 73. *)
Definition nint_of (temp_msb : Z) : Z :=
  if negb (Z.land temp_msb 0x80 =? 0)
  then to_int8 (Z.lor temp_msb (Z.lnot (Z.shiftl 1 8 - 1)))
  else to_int8 temp_msb.

(** Lines 67 to 75, from the two values that [Wire.read()] returned.
    [0.25 * temp_lsb + nint] is computed in floating point.  Its operands are
    an integer in [0, 255] and one in [-128, 127], so every intermediate value
    is a multiple of 1/4 below 2^8 in magnitude, which the format represents
    exactly: the rational value is the floating-point value. *)
Definition temp_of_raw (r0 r1 : Z) : Z :=
  let temp_msb := to_byte r0 in
  let temp_lsb := to_byte (Z.shiftr r1 6) in
  let nint := nint_of temp_msb in
  double_to_byte ((1 # 4) * inject_Z temp_lsb + inject_Z nint)%Q.

Definition readDS3231temperature : IO Z :=
  (beginTransmission DS3231_I2C_ADDRESS ;;
   write DS3231_TEMPERATURE_ADDR ;;
   endTransmission ;;
   requestFrom DS3231_I2C_ADDRESS 2 ;;
   r0 <- read ;;
   r1 <- read ;;
   ret (temp_of_raw r0 r1))%io.

Definition updateTime : IO unit :=
  (t <- readDS3231time ;;
   setTime (hour t) (minute t) (second t) (dayOfMonth t) (month t)
           (to_int (2000 + year t)))%io.

(** The reading as the specification words it: the first byte as a signed
    8-bit number in two's complement, and the top two bits of the second byte
    counting quarters of a degree. *)
Definition twos_complement8 (b : Z) : Z := if b <? 128 then b else b - 256.
Definition top_two_bits (b : Z) : Z := b / 64.
Definition spec_temperature (msb lsb : Z) : Q :=
  (inject_Z (twos_complement8 msb) + (1 # 4) * inject_Z (top_two_bits lsb))%Q.

(** The stored byte in closed form: a reading at or above zero, or one with no
    quarters, stores the first byte as it is; a reading below zero with a
    fraction is rounded toward zero, one above the first byte. *)
Definition stored_temperature (msb lsb : Z) : Z :=
  if (msb <? 128) || (top_two_bits lsb =? 0) then msb else to_byte (msb + 1).

Definition temperature_agrees (msb lsb : Z) : bool :=
  (nint_of msb =? twos_complement8 msb)
  && (temp_of_raw msb lsb =? double_to_byte (spec_temperature msb lsb))
  && (temp_of_raw msb lsb =? stored_temperature msb lsb).

End DS3231.

Import DS3231.

(** ** The sketch: globals and [loop()] *)

Module Sketch.

Definition HIGH : Z := 1.
Definition LOW : Z := 0.
Definition NUM_LEDS : Z := 12.

(** [unsigned long debounceDelay = 1000], never assigned. *)
Definition debounceDelay : Z := 1000.

(** The globals that [loop()] reads and writes. *)
Record Globals : Type := mkGlobals {
  ledState : Z;
  buttonState : Z;
  lastButtonState : Z;
  chStep : Z;
  chLed : Z;
  chDelay : Z;
  chRound : Z;
  chLastTime : Z;
  lastDebounceTime : Z
}.

(** The values at the first entry of [loop()]: the initialisers of the
    declarations, and zero for [buttonState], which has none.  [setup()]
    assigns none of them. *)
Definition initial : Globals :=
  mkGlobals HIGH 0 LOW 1 0 20 0 0 0.

Definition set_ledState (v : Z) (g : Globals) : Globals :=
  mkGlobals v (buttonState g) (lastButtonState g) (chStep g) (chLed g)
            (chDelay g) (chRound g) (chLastTime g) (lastDebounceTime g).
Definition set_buttonState (v : Z) (g : Globals) : Globals :=
  mkGlobals (ledState g) v (lastButtonState g) (chStep g) (chLed g)
            (chDelay g) (chRound g) (chLastTime g) (lastDebounceTime g).
Definition set_lastButtonState (v : Z) (g : Globals) : Globals :=
  mkGlobals (ledState g) (buttonState g) v (chStep g) (chLed g)
            (chDelay g) (chRound g) (chLastTime g) (lastDebounceTime g).
Definition set_chStep (v : Z) (g : Globals) : Globals :=
  mkGlobals (ledState g) (buttonState g) (lastButtonState g) v (chLed g)
            (chDelay g) (chRound g) (chLastTime g) (lastDebounceTime g).
Definition set_chLed (v : Z) (g : Globals) : Globals :=
  mkGlobals (ledState g) (buttonState g) (lastButtonState g) (chStep g) v
            (chDelay g) (chRound g) (chLastTime g) (lastDebounceTime g).
Definition set_chDelay (v : Z) (g : Globals) : Globals :=
  mkGlobals (ledState g) (buttonState g) (lastButtonState g) (chStep g)
            (chLed g) v (chRound g) (chLastTime g) (lastDebounceTime g).
Definition set_chRound (v : Z) (g : Globals) : Globals :=
  mkGlobals (ledState g) (buttonState g) (lastButtonState g) (chStep g)
            (chLed g) (chDelay g) v (chLastTime g) (lastDebounceTime g).
Definition set_chLastTime (v : Z) (g : Globals) : Globals :=
  mkGlobals (ledState g) (buttonState g) (lastButtonState g) (chStep g)
            (chLed g) (chDelay g) (chRound g) v (lastDebounceTime g).
Definition set_lastDebounceTime (v : Z) (g : Globals) : Globals :=
  mkGlobals (ledState g) (buttonState g) (lastButtonState g) (chStep g)
            (chLed g) (chDelay g) (chRound g) (chLastTime g) v.

(** What one pass of [loop()] takes from outside: the value [analogRead]
    returns, and the true time in milliseconds (never wrapped) at each of the
    four places where [millis()] is called: line 220, line 223, line 249 and
    line 272. *)
Record Input : Type := mkInput {
  reading : Z;
  atChange : Z;
  atDebounce : Z;
  atChase : Z;
  atChaseEnd : Z
}.

(** [millis()] returns the time as an [unsigned long]. *)
Definition millis (t : Z) : Z := to_ulong t.

(** C's [!x] on an [int]. *)
Definition not_int (x : Z) : Z := if x =? 0 then 1 else 0.

(** Lines 218 to 235: the debounced button. *)
Definition debounce (i : Input) (g : Globals) : Globals :=
  let g :=
    if negb (reading i =? lastButtonState g)
    then set_lastDebounceTime (millis (atChange i)) g
    else g in
  if to_ulong (millis (atDebounce i) - lastDebounceTime g) >? debounceDelay
  then
    if negb (reading i =? buttonState g)
    then
      let g := set_buttonState (reading i) g in
      if buttonState g =? HIGH
      then set_ledState (not_int (ledState g)) g
      else g
    else g
  else g.

(** The guard of line 252: this step counts a round. *)
Definition roundTrip (g : Globals) : bool :=
  (chLed g >? NUM_LEDS - 2) || (chLed g <? 0).

(** The guards of lines 252 and 256 together: this step reverses the
    direction. *)
Definition reverses (g : Globals) : bool :=
  roundTrip g && (to_int (chRound g + 1) >? 20).

(** Lines 252 to 269: one step of the chase animation. *)
Definition chaseStep (g : Globals) : Globals :=
  let g :=
    if roundTrip g
    then
      let g := set_chRound (to_int (chRound g + 1)) g in
      let g := set_chLed (if chLed g >? NUM_LEDS - 1 then -1 else NUM_LEDS - 1) g in
      if chRound g >? 20
      then
        let g := set_chStep (to_int (- chStep g)) g in
        let g := set_chDelay
                   (if chDelay g <? 2000 then to_int (chDelay g + 20) else 20) g in
        set_chRound 0 g
      else g
    else g in
  if (to_int (chLed g + chStep g) <? NUM_LEDS)
     && (to_int (chLed g + chStep g) >=? 0)
  then set_chLed (to_int (chLed g + chStep g)) g
  else set_chLed (if chStep g >? 0 then 0 else NUM_LEDS - 1) g.

(** Lines 249 to 273: the animation step is taken when more than [chDelay]
    milliseconds have passed since the last one; [chDelay] is converted to
    [unsigned long] for the comparison. *)
Definition chase (i : Input) (g : Globals) : Globals :=
  if to_ulong (millis (atChase i) - chLastTime g) >? to_ulong (chDelay g)
  then set_chLastTime (millis (atChaseEnd i)) (chaseStep g)
  else g.

(** One pass of [loop()].  The serial output and the pin writes of
    [setOnlyLed] change none of the globals and are left out. *)
Definition loop (i : Input) (g : Globals) : Globals :=
  set_lastButtonState (reading i) (chase i (debounce i g)).

(** [n] executions of the animation step. *)
Definition chaseRun (n : nat) (g : Globals) : Globals :=
  Nat.iter n chaseStep g.

(** The number of rounds counted by the first [n] animation steps from [g]. *)
Fixpoint roundTrips (n : nat) (g : Globals) : nat :=
  match n with
  | O => O
  | S k => ((if roundTrip g then 1 else 0) + roundTrips k (chaseStep g))%nat
  end.

(** Passes of [loop()] over a sequence of inputs. *)
Definition run (ins : list Input) (g : Globals) : Globals :=
  fold_left (fun g i => loop i g) ins g.

(** The pass with input [i] from [g] changes the latch [ledState]. *)
Definition toggles (i : Input) (g : Globals) : bool :=
  negb (ledState (loop i g) =? ledState g).

(** Time moves forward: from [t0] on, the clock readings within a pass and
    from one pass to the next never decrease. *)
Fixpoint chronological (t0 : Z) (ins : list Input) : bool :=
  match ins with
  | [] => true
  | i :: rest =>
      (t0 <=? atChange i) && (atChange i <=? atDebounce i)
      && (atDebounce i <=? atChase i) && (atChase i <=? atChaseEnd i)
      && chronological (atChaseEnd i) rest
  end.

(** The animation delay is a multiple of 20 within [20, 2000]. *)
Definition delay_ok (d : Z) : Prop := 20 <= d <= 2000 /\ d mod 20 = 0.

(** The animation state that the steps keep within. *)
Definition chase_ok (g : Globals) : Prop :=
  (chStep g = 1 \/ chStep g = -1) /\
  0 <= chLed g <= NUM_LEDS - 1 /\
  delay_ok (chDelay g) /\
  0 <= chRound g <= 20.

(** Direction and delay after [n] steps from the initial state. *)
Definition heading (n : nat) : Z * Z :=
  (chStep (chaseRun n initial), chDelay (chaseRun n initial)).

Definition heading_is (d : Z * Z) (n : nat) : bool :=
  (fst (heading n) =? fst d) && (snd (heading n) =? snd d).

(** The time of the last clock reading of a sequence of passes that starts
    at [t0]. *)
Definition clock (t0 : Z) (ins : list Input) : Z :=
  fold_left (fun _ i => atChaseEnd i) ins t0.

(** What a pass of [loop()] does to the button's variables. *)
Definition changed (b : Input) (g : Globals) : bool :=
  negb (reading b =? lastButtonState g).
Definition debounceFrom (b : Input) (g : Globals) : Z :=
  if changed b g then millis (atChange b) else lastDebounceTime g.
Definition accepted (b : Input) (g : Globals) : bool :=
  (to_ulong (millis (atDebounce b) - debounceFrom b g) >? debounceDelay)
  && negb (reading b =? buttonState g).

(** The readings since the debounce timer was last started, at the true time
    [L]: either it never was and every reading was [LOW], or it was started
    by the pass [c] and the readings have been the same from [c] on. *)
Definition stable_since (L : Z) (pre : list Input) (g : Globals) : Prop :=
  (L = 0 /\ lastButtonState g = LOW /\
   Forall (fun a => reading a = LOW) pre) \/
  (exists p1 c p2,
      pre = p1 ++ c :: p2 /\ L = atChange c /\
      Forall (fun a => reading a = lastButtonState g) (c :: p2)).

(** Every toggle among the passes [pre] either still blocks the next one (the
    accepted state is [HIGH], and the reading has not left [HIGH] since the
    toggle or the timer was restarted after it) or lies more than
    [debounceDelay] back. *)
Definition toggles_apart (L : Z) (pre : list Input) (g : Globals) : Prop :=
  forall p1 a p2,
    pre = p1 ++ a :: p2 -> toggles a (run p1 initial) = true ->
    (buttonState g = HIGH /\ (lastButtonState g = HIGH \/ atDebounce a <= L)) \/
    atDebounce a + debounceDelay < clock 0 pre.

(** The state of the button after the passes [pre]. *)
Definition button_inv (pre : list Input) (g : Globals) : Prop :=
  exists L,
    lastDebounceTime g = millis L /\ 0 <= L <= clock 0 pre /\
    stable_since L pre g /\ toggles_apart L pre g.

(** A pass that reads [r] and sees the clock at [t] throughout. *)
Definition pass (r t : Z) : Input := mkInput r t t t t.

(** A button pressed, held, released and pressed again. *)
Definition press_release_press : list Input :=
  [pass 1 10; pass 1 1500; pass 0 2000; pass 0 3500; pass 1 4000].

End Sketch.

Import Sketch.

(** ** The sketch's outputs: pins, delays and serial text

    The functions of the sketch that drive the LEDs write pins, wait and
    print.  Each is modelled by the sequence of these events that it
    produces.  A read of [LED_PIN] outside its twelve elements has no defined
    value: from there on the function has no result ([None]). *)

Module Board.

Inductive Event : Type :=
| SerialBegin (baud : Z)
| PinMode (pin mode : Z)
| DigitalWrite (pin level : Z)
| Delay (ms : Z)
| Print (text : String.string)
| PrintNum (n : Z)
| Println.

Definition Out : Type := option (list Event).

Definition emit (e : Event) : Out := Some [e].
Definition nothing : Out := Some [].

Definition andThen (a b : Out) : Out :=
  match a with
  | Some x => match b with Some y => Some (x ++ y) | None => None end
  | None => None
  end.

(** [for (i = ...; ...; i++) body], over the values that [i] takes. *)
Definition for_each (l : list Z) (body : Z -> Out) : Out :=
  fold_right (fun i rest => andThen (body i) rest) nothing l.

(** The values of [i] in [for (i = lo; i < hi; i++)]. *)
Definition range (lo hi : Z) : list Z :=
  map (fun k => lo + Z.of_nat k) (seq 0 (Z.to_nat (hi - lo))).

(** The board's pin numbers and modes (Arduino Nano: [A0] is pin 14, so
    [A3], [A6] and [A7] are pins 17, 20 and 21). *)
Definition INPUT : Z := 0.
Definition OUTPUT : Z := 1.
Definition A3 : Z := 17.
Definition A6 : Z := 20.
Definition A7 : Z := 21.
Definition BUTTON_PIN : Z := A3.
Definition LEDSUP_PIN : Z := A6.
Definition FILTER_PIN : Z := A7.

Definition LED_PIN : list Z := [2; 3; 4; 5; 6; 7; 8; 9; 10; 11; 12; 13].

(** [LED_PIN[i]]. *)
Definition LED_PIN_at (i : Z) : option Z :=
  if 0 <=? i then nth_error LED_PIN (Z.to_nat i) else None.

(** [digitalWrite(LED_PIN[i], level)]. *)
Definition digitalWriteLed (i level : Z) : Out :=
  match LED_PIN_at i with
  | Some pin => emit (DigitalWrite pin level)
  | None => None
  end.

(** [pinMode(LED_PIN[i], mode)]. *)
Definition pinModeLed (i mode : Z) : Out :=
  match LED_PIN_at i with
  | Some pin => emit (PinMode pin mode)
  | None => None
  end.

End Board.

Import Board.

Declare Scope out_scope.
Delimit Scope out_scope with out.
Notation "a >> b" := (andThen a b)
  (at level 62, right associativity) : out_scope.

Module Display.

(** Lines 377 to 382. *)
Definition setAllLed (on : Z) : Out :=
  for_each (range 0 NUM_LEDS) (fun i => digitalWriteLed i on).

(** Lines 387 to 404. *)
Definition setOnlyLed (n : Z) : Out :=
  ((if n =? 0 then emit Println else nothing) >>
   emit (PrintNum n) >>
   emit (Print ", "%string) >>
   for_each (range 0 NUM_LEDS)
     (fun i => if n =? i
               then digitalWriteLed i HIGH
               else digitalWriteLed i LOW))%out.

(** Lines 281 to 298.  [abs] is applied to the [int] [NUM_LEDS - i]. *)
Definition displayChase : Out :=
  (setAllLed LOW >>
   for_each (range 0 10)
     (fun j =>
        for_each (range 0 NUM_LEDS)
          (fun i =>
             setAllLed LOW >>
             digitalWriteLed i HIGH >>
             digitalWriteLed (Z.abs (to_int (NUM_LEDS - i))) HIGH) >>
        emit (Delay 500)))%out.

(** Lines 310 to 371, given the values [hr] of [hour(t)] and [mn] of
    [minute(t)] for the current time [t = now()]; [%] and [/] are C's, which
    round toward zero. *)
Definition displayTime (hr mn : Z) : Out :=
  let h := Z.rem hr 12 in
  let m := Z.quot mn 5 in
  (emit (PrintNum h) >> emit (Print ":"%string) >> emit (PrintNum m) >> emit Println >>
   setAllLed LOW >>
   for_each (range 0 NUM_LEDS)
     (fun i =>
        digitalWriteLed 0 HIGH >> emit (Delay 100) >>
        digitalWriteLed 0 LOW >> emit (Delay 100)) >>
   setAllLed LOW >>
   emit (Delay 100) >>
   for_each (range 1 NUM_LEDS)
     (fun i =>
        (if i <=? h then digitalWriteLed i HIGH else digitalWriteLed i LOW) >>
        emit (Delay 500)) >>
   emit (Delay 5000) >>
   setAllLed LOW >>
   emit (Delay 5000) >>
   for_each (range 0 NUM_LEDS)
     (fun i =>
        (if i <? m then digitalWriteLed i HIGH else digitalWriteLed i LOW) >>
        emit (Delay 100)) >>
   emit (Delay 1000) >>
   setAllLed LOW >>
   emit (Delay 1000) >>
   for_each (range 0 5)
     (fun j =>
        for_each (range 0 m) (fun i => digitalWriteLed i HIGH) >>
        emit (Delay 1000) >>
        setAllLed LOW) >>
   emit (Delay 5000) >>
   setAllLed HIGH >>
   emit (Delay 1000))%out.

(** Lines 170 to 202: the outputs of [setup()], and what it does to the bus
    and the system time through [updateTime]. *)
Definition setup_outputs : Out :=
  (emit (SerialBegin 9600) >>
   emit (PinMode BUTTON_PIN INPUT) >>
   emit (PinMode LEDSUP_PIN OUTPUT) >>
   emit (PinMode FILTER_PIN OUTPUT) >>
   for_each (range 0 NUM_LEDS) (fun i => pinModeLed i OUTPUT) >>
   for_each (range 0 NUM_LEDS) (fun i => setOnlyLed i >> emit (Delay 300)) >>
   for_each (range 0 10)
     (fun j =>
        for_each (range 0 NUM_LEDS) (fun i => digitalWriteLed i HIGH) >>
        emit (Delay 200) >>
        for_each (range 0 NUM_LEDS) (fun i => digitalWriteLed i LOW) >>
        emit (Delay 500)))%out.

Definition setup (w : World) : World * Out :=
  (exec updateTime w, setup_outputs).

(** The outputs of one pass of [loop()]: the empty line of line 241, the
    delay printed at a reversal (line 260) and the LED update of line 271. *)
Definition loop_outputs (i : Input) (g : Globals) : Out :=
  let g1 := debounce i g in
  ((if to_ulong (millis (atDebounce i) - debounceFrom i g) >? debounceDelay
    then emit Println else nothing) >>
   (if to_ulong (millis (atChase i) - chLastTime g1) >? to_ulong (chDelay g1)
    then
      (if reverses g1
       then emit (PrintNum (chDelay (chaseStep g1))) >> emit Println
       else nothing) >>
      setOnlyLed (chLed (chaseStep g1))
    else nothing))%out.

(** The levels of the pins. *)
Definition Pins : Type := Z -> Z.

Definition write_pin (pin level : Z) (pins : Pins) : Pins :=
  fun q => if q =? pin then level else pins q.

Definition apply_event (pins : Pins) (e : Event) : Pins :=
  match e with
  | DigitalWrite pin level => write_pin pin level pins
  | _ => pins
  end.

(** The pins after a sequence of events. *)
Definition pinsAfter (evs : list Event) (pins : Pins) : Pins :=
  fold_left apply_event evs pins.

(** The levels of the twelve LEDs, from the 12 o'clock position on. *)
Definition leds (pins : Pins) : list Z := map pins LED_PIN.

(** What the LEDs show during each [delay], and for how long. *)
Fixpoint frames (evs : list Event) (pins : Pins) : list (list Z * Z) :=
  match evs with
  | [] => []
  | Delay ms :: rest => (leds pins, ms) :: frames rest pins
  | e :: rest => frames rest (apply_event pins e)
  end.

(** The time spent in [delay]. *)
Definition duration (evs : list Event) : Z :=
  fold_right (fun e t => match e with Delay ms => ms + t | _ => t end) 0 evs.

(** LEDs lit on the positions where [p] holds. *)
Definition lit (p : Z -> bool) : list Z :=
  map (fun i => if p i then HIGH else LOW) (range 0 NUM_LEDS).

End Display.

Import Display.

(** ** The vocabulary of the further properties *)

Module Further.

(** The nibbles of the encoding of [d] are its decimal digits. *)
Definition digits_in_nibbles (d : Z) : bool :=
  (Z.shiftr (decToBcd d) 4 =? d / 10) && (Z.land (decToBcd d) 0xf =? d mod 10).

(** The data bytes of the write calls in a bus log. *)
Definition written (log : list BusOp) : list Z :=
  flat_map (fun op => match op with Write d => [d] | _ => [] end) log.

(** The registers that a write transaction leaves in the device: the bytes
    after the register pointer. *)
Definition registers (log : list BusOp) : list Z := tl (written log).

(** The field [v], encoded, comes back modulo 80 through the seconds mask,
    modulo 40 through the hour mask and as it is without a mask. *)
Definition survives_masks (v : Z) : bool :=
  (bcdToDec (to_byte (Z.land (decToBcd v) 0x7f)) =? v mod 80)
  && (bcdToDec (to_byte (Z.land (decToBcd v) 0x3f)) =? v mod 40)
  && (bcdToDec (to_byte (decToBcd v)) =? v).

(** The bounds of what a byte decodes to, unmasked and through each mask. *)
Definition decoded_within (b : Z) : bool :=
  (bcdToDec b <=? 165)
  && (bcdToDec (to_byte (Z.land b 0x7f)) <=? 85)
  && (bcdToDec (to_byte (Z.land b 0x3f)) <=? 45).

(** The state of the chase after [n] steps, in closed form: the direction
    changes every 252 steps, the delay grows by 20 with every change and
    returns to 20 after 2000, the index sweeps upward from 0 or downward from
    10, and a round is counted every 12 steps. *)
Definition chaseAt (n : Z) : Globals :=
  let q := n / 252 in
  let r := n mod 252 in
  {| ledState := HIGH; buttonState := 0; lastButtonState := LOW;
     chStep := if Z.even q then 1 else -1;
     chLed := if Z.even q then r mod 12 else (10 - r) mod 12;
     chDelay := 20 + 20 * (q mod 100);
     chRound := r / 12;
     chLastTime := 0; lastDebounceTime := 0 |}.

(** Equality of two states, field by field. *)
Definition Globals_eqb (a b : Globals) : bool :=
  (ledState a =? ledState b) && (buttonState a =? buttonState b)
  && (lastButtonState a =? lastButtonState b)
  && (chStep a =? chStep b) && (chLed a =? chLed b)
  && (chDelay a =? chDelay b) && (chRound a =? chRound b)
  && (chLastTime a =? chLastTime b)
  && (lastDebounceTime a =? lastDebounceTime b).

(** [p] holds of the step number and the state, for [k] steps from step [z]
    in state [g]. *)
Fixpoint along (p : Z -> Globals -> bool) (k : nat) (z : Z) (g : Globals) : bool :=
  match k with
  | O => true
  | S k' => p z g && along p k' (z + 1) (chaseStep g)
  end.

(** The number of steps after which the animation repeats. *)
Definition chase_period : nat := 252 * 100.

(** At step [z] the state is [chaseAt z], and the step reverses the
    direction exactly when [z] is 251 modulo 252. *)
Definition as_charted (z : Z) (g : Globals) : bool :=
  Globals_eqb g (chaseAt z) && Bool.eqb (reverses g) (z mod 252 =? 251).

(** Two passes see the same clock where the animation reads it. *)
Definition same_clocks (a b : Input) : Prop :=
  atChase a = atChase b /\ atChaseEnd a = atChaseEnd b.

(** Two states agree on the variables of the animation. *)
Definition same_chase (g g' : Globals) : Prop :=
  chStep g = chStep g' /\ chLed g = chLed g' /\ chDelay g = chDelay g' /\
  chRound g = chRound g' /\ chLastTime g = chLastTime g'.

(** The number of passes of a run that toggle the latch. *)
Fixpoint toggle_count (ins : list Input) (g : Globals) : nat :=
  match ins with
  | [] => O
  | i :: rest =>
      ((if toggles i g then 1 else 0) + toggle_count rest (loop i g))%nat
  end.

(** The writes of a loop over the twelve LEDs that sets LED [i] to
    [level i]. *)
Definition led_writes (level : Z -> Z) : list Event :=
  map (fun i => DigitalWrite (2 + i) (level i)) (range 0 NUM_LEDS).

(** The animation step is due in this pass. *)
Definition chase_due (i : Input) (g : Globals) : bool :=
  to_ulong (millis (atChase i) - chLastTime g) >? to_ulong (chDelay g).

(** The number of LEDs that are on. *)
Definition lit_count (levels : list Z) : nat :=
  count_occ Z.eq_dec levels HIGH.

(** All twelve LEDs off, and all twelve on. *)
Definition dark : list Z := lit (fun _ => false).
Definition all_on : list Z := lit (fun _ => true).

(** What [displayTime] shows for the hour [h] in [0, 11] and [m] full five
    minutes: twelve flashes of the 12 o'clock LED; the hour LEDs 1 to [h]
    coming on one by one and held for five seconds; after five dark seconds
    the LEDs 0 to [m - 1] coming on one by one, held for a second, dark for a
    second and shown again for five seconds; five dark seconds; and all
    twelve LEDs on for the last second. *)
Definition displayTime_frames (h m : Z) : list (list Z * Z) :=
  flat_map (fun _ => [(lit (Z.eqb 0), 100); (dark, 100)]) (range 0 12)
  ++ [(dark, 100)]
  ++ map (fun i => (lit (fun k => (1 <=? k) && (k <=? Z.min i h)), 500))
         (range 1 12)
  ++ [(lit (fun k => (1 <=? k) && (k <=? h)), 5000); (dark, 5000)]
  ++ map (fun i => (lit (fun k => (k <=? i) && (k <? m)), 100)) (range 0 12)
  ++ [(lit (fun k => k <? m), 1000); (dark, 1000)]
  ++ map (fun _ => (lit (fun k => k <? m), 1000)) (range 0 5)
  ++ [(dark, 5000); (all_on, 1000)].

(** Two lists have the same length and [eqb] holds of their elements, place
    by place. *)
Definition same_list {A} (eqb : A -> A -> bool) (xs ys : list A) : bool :=
  Nat.eqb (List.length xs) (List.length ys)
  && forallb (fun p => eqb (fst p) (snd p)) (combine xs ys).

(** Equality of two frames. *)
Definition frame_eqb (a b : list Z * Z) : bool :=
  same_list Z.eqb (fst a) (fst b) && (snd a =? snd b).

(** [displayTime] shows [displayTime_frames], waits 32200 ms in all and ends
    with all LEDs on. *)
Definition displayTime_as_framed (pins : Pins) (hr mn : Z) : bool :=
  match displayTime hr mn with
  | Some evs =>
      same_list frame_eqb (frames evs pins)
               (displayTime_frames (hr mod 12) (mn / 5))
      && (duration evs =? 32200)
      && same_list Z.eqb (leds (pinsAfter evs pins)) all_on
  | None => false
  end.

(** The array element that [displayChase] pairs with position [i] is pin
    [14 - i], or none for [i = 0]. *)
Definition mirrored_as_found (i : Z) : bool :=
  match LED_PIN_at (Z.abs (to_int (NUM_LEDS - i))) with
  | Some pin => negb (i =? 0) && (pin =? 14 - i)
  | None => i =? 0
  end.

(** The pin modes that a sequence of events sets, in order. *)
Definition pin_modes (evs : list Event) : list (Z * Z) :=
  flat_map (fun e => match e with PinMode p m => [(p, m)] | _ => [] end) evs.

(** What [setup()] shows: each LED alone for 300 ms, then ten flashes of all
    twelve. *)
Definition setup_frames : list (list Z * Z) :=
  map (fun i => (lit (Z.eqb i), 300)) (range 0 12)
  ++ flat_map (fun _ => [(all_on, 200); (dark, 500)]) (range 0 10).

(** [setup()] shows [setup_frames], waits 10600 ms in all, ends with all
    LEDs off and sets the pin modes of the button, the relays and the
    LEDs. *)
Definition setup_as_framed (pins : Pins) : bool :=
  match setup_outputs with
  | Some evs =>
      same_list frame_eqb (frames evs pins) setup_frames
      && (duration evs =? 10600)
      && same_list Z.eqb (leds (pinsAfter evs pins)) dark
      && same_list (fun a b => (fst a =? fst b) && (snd a =? snd b))
           (pin_modes evs)
           ((BUTTON_PIN, INPUT) :: (LEDSUP_PIN, OUTPUT) :: (FILTER_PIN, OUTPUT)
            :: map (fun p => (p, OUTPUT)) LED_PIN)
  | None => false
  end.

End Further.

Import Further.

(** ** Facts about machine integers *)

Lemma to_byte_range z : 0 <= to_byte z < 256.
Proof. unfold to_byte. apply Z.mod_pos_bound. lia. Qed.

Lemma to_byte_small z : 0 <= z < 256 -> to_byte z = z.
Proof. intros H. unfold to_byte. now apply Z.mod_small. Qed.

Lemma to_int_small z : -32768 <= z <= 32767 -> to_int z = z.
Proof. intros H. unfold to_int. rewrite Z.mod_small; lia. Qed.

Lemma to_int8_small z : -128 <= z <= 127 -> to_int8 z = z.
Proof. intros H. unfold to_int8. rewrite Z.mod_small; lia. Qed.

Lemma to_ulong_range z : 0 <= to_ulong z < 4294967296.
Proof. unfold to_ulong. apply Z.mod_pos_bound. lia. Qed.

(** The difference of two readings of a 32-bit millisecond counter, taken at
    the true times [a <= b], never overstates the time that really passed. *)
Lemma ulong_elapsed a b :
  a <= b -> to_ulong (to_ulong b - to_ulong a) <= b - a.
Proof.
  intros H. unfold to_ulong.
  rewrite <- Zminus_mod.
  apply Z.mod_le; lia.
Qed.

Lemma forall_from_spec n : forall lo p,
  forall_from lo n p = true ->
  forall z, lo <= z < lo + Z.of_nat n -> p z = true.
Proof.
  induction n as [|n IH]; intros lo p H z Hz.
  - simpl in Hz. lia.
  - cbn [forall_from] in H. apply andb_true_iff in H as [H0 H1].
    destruct (Z.eq_dec z lo) as [->|Hne]; [exact H0|].
    apply (IH (lo + 1) p H1). lia.
Qed.

(** ** Properties of the BCD conversion *)

Lemma decToBcd_digits d :
  0 <= d <= 99 -> decToBcd d = 16 * (d / 10) + d mod 10.
Proof.
  intros H. unfold decToBcd.
  assert (0 <= d / 10 <= 9) by (split; [apply Z.div_pos; lia | apply Z.lt_succ_r, Z.div_lt_upper_bound; lia]).
  assert (0 <= d mod 10 < 10) by (apply Z.mod_pos_bound; lia).
  rewrite to_byte_small; lia.
Qed.

(** C1: for every decimal [d] in [0, 99], decoding the BCD encoding of [d]
    gives [d] back. *)
Theorem bcd_roundtrip (d : Z) :
  0 <= d <= 99 -> bcdToDec (decToBcd d) = d.
Proof.
  intros H.
  rewrite (decToBcd_digits d H).
  assert (Hq : 0 <= d / 10 <= 9) by (split; [apply Z.div_pos; lia | apply Z.lt_succ_r, Z.div_lt_upper_bound; lia]).
  assert (Hr : 0 <= d mod 10 < 10) by (apply Z.mod_pos_bound; lia).
  unfold bcdToDec.
  replace ((16 * (d / 10) + d mod 10) / 16) with (d / 10)
    by (apply (Z.div_unique _ 16 _ (d mod 10)); lia).
  replace ((16 * (d / 10) + d mod 10) mod 16) with (d mod 10)
    by (apply (Z.mod_unique _ 16 (d / 10)); lia).
  rewrite to_byte_small by lia.
  pose proof (Z.div_mod d 10). lia.
Qed.

(** The round trip at 59, the largest minute. *)
Lemma bcd_roundtrip_at_59 : 0 <= 59 <= 99 /\ bcdToDec (decToBcd 59) = 59.
Proof. split; [lia | apply (bcd_roundtrip 59); lia]. Defined.

(** C7: [decToBcd(34) == 0x34], with high nibble 3 and low nibble 4, and
    [bcdToDec(0x52) == 52]. *)
Theorem bcd_scenario :
  decToBcd 34 = 0x34 /\
  Z.shiftr (decToBcd 34) 4 = 3 /\ Z.land (decToBcd 34) 0xf = 4 /\
  bcdToDec 0x52 = 52.
Proof. repeat split; reflexivity. Qed.

(** ** The bus transactions *)

Lemma to_byte_idem z : to_byte (to_byte z) = to_byte z.
Proof. unfold to_byte. apply Z.mod_mod. lia. Qed.

Lemma decToBcd_byte v : to_byte (decToBcd v) = decToBcd v.
Proof. unfold decToBcd. apply to_byte_idem. Qed.

Lemma bcdToDec_range v : 0 <= bcdToDec v < 256.
Proof. unfold bcdToDec. apply to_byte_range. Qed.

(** Case analysis on the first seven bytes that the device will deliver. *)
Ltac split_world w :=
  let rx := fresh "rx" in
  let sl := fresh "sl" in
  let lg := fresh "lg" in
  let st := fresh "st" in
  destruct w as [rx sl lg st];
  destruct sl as [|? [|? [|? [|? [|? [|? [|? sl]]]]]]].

#[local] Arguments to_byte : simpl never.
#[local] Arguments to_int : simpl never.
#[local] Arguments decToBcd : simpl never.
#[local] Arguments bcdToDec : simpl never.
#[local] Arguments temp_of_raw : simpl never.

Ltac run_io :=
  unfold exec, eval, bind, ret, beginTransmission, write, endTransmission,
    requestFrom, read, setTime, logged, delivering;
  repeat match goal with
         | |- context [Z.to_nat ?q] =>
             let n := eval vm_compute in (Z.to_nat q) in
             change (Z.to_nat q) with n
         end;
  cbn.

(** C8: every transaction names the address 0x68; [setDS3231time] writes the
    register pointer 0x00 and then the seven BCD-encoded fields in the order
    second, minute, hour, day of week, day of month, month, year;
    [readDS3231time] writes the pointer 0x00, requests seven bytes and reads
    seven; [readDS3231temperature] writes the pointer 0x11, requests two bytes
    and reads two. *)
Theorem bus_transactions :
  (forall s mi h dw dm mo y w,
      busLog (exec (setDS3231time s mi h dw dm mo y) w) =
      busLog w ++
        [BeginTransmission 0x68; Write 0x00;
         Write (decToBcd s); Write (decToBcd mi); Write (decToBcd h);
         Write (decToBcd dw); Write (decToBcd dm); Write (decToBcd mo);
         Write (decToBcd y); EndTransmission]) /\
  (forall w, exists r0 r1 r2 r3 r4 r5 r6,
      busLog (exec readDS3231time w) =
      busLog w ++
        [BeginTransmission 0x68; Write 0x00; EndTransmission;
         RequestFrom 0x68 7;
         Read r0; Read r1; Read r2; Read r3; Read r4; Read r5; Read r6]) /\
  (forall w, exists r0 r1,
      busLog (exec readDS3231temperature w) =
      busLog w ++
        [BeginTransmission 0x68; Write 0x11; EndTransmission;
         RequestFrom 0x68 2; Read r0; Read r1]).
Proof.
  split; [|split].
  - intros. unfold setDS3231time. run_io.
    rewrite !decToBcd_byte, <- !app_assoc. reflexivity.
  - intros w. unfold readDS3231time. split_world w; run_io;
      do 7 eexists; rewrite <- !app_assoc; reflexivity.
  - intros w. unfold readDS3231temperature. split_world w; run_io;
      do 2 eexists; rewrite <- !app_assoc; reflexivity.
Qed.

(** ** Reading the time *)

Lemma land_ones_byte b n :
  0 <= n <= 8 -> to_byte (Z.land b (Z.ones n)) = Z.land b (Z.ones n).
Proof.
  intros Hn. apply to_byte_small.
  rewrite Z.land_ones by lia.
  pose proof (Z.mod_pos_bound b (2 ^ n) ltac:(apply Z.pow_pos_nonneg; lia)).
  assert (2 ^ n <= 2 ^ 8) by (apply Z.pow_le_mono_r; lia).
  change (2 ^ 8) with 256 in *. lia.
Qed.

(** C9: [readDS3231time] decodes the seconds byte masked with 0x7f and the
    hour byte masked with 0x3f, and decodes the minute, day-of-week,
    day-of-month, month and year bytes as they are. *)
Theorem readDS3231time_masks (b0 b1 b2 b3 b4 b5 b6 : Z) (rest : list Z) (w : World) :
  Forall is_byte [b0; b1; b2; b3; b4; b5; b6] ->
  eval readDS3231time (delivering (b0 :: b1 :: b2 :: b3 :: b4 :: b5 :: b6 :: rest) w) =
  {| second := bcdToDec (Z.land b0 0x7f);
     minute := bcdToDec b1;
     hour := bcdToDec (Z.land b2 0x3f);
     dayOfWeek := bcdToDec b3;
     dayOfMonth := bcdToDec b4;
     month := bcdToDec b5;
     year := bcdToDec b6 |}.
Proof.
  intros Hb.
  repeat match goal with
         | H : Forall _ (_ :: _) |- _ => inversion H; clear H; subst
         end.
  unfold readDS3231time. run_io.
  change 127 with (Z.ones 7). change 63 with (Z.ones 6).
  rewrite !land_ones_byte by lia.
  unfold is_byte in *.
  rewrite !to_byte_small by assumption.
  reflexivity.
Qed.

(** The last second of 2099, read with the high bits of the seconds and
    hour registers set. *)
Lemma readDS3231time_masks_at_new_year_eve :
  eval readDS3231time
       (delivering [0xd9; 0x59; 0x63; 0x07; 0x31; 0x12; 0x99] power_on) =
  {| second := 59; minute := 59; hour := 23; dayOfWeek := 7;
     dayOfMonth := 31; month := 12; year := 99 |}.
Proof.
  apply (readDS3231time_masks 0xd9 0x59 0x63 0x07 0x31 0x12 0x99 [] power_on).
  repeat constructor; unfold is_byte; lia.
Defined.

(** ** Setting the system time *)

(** C10: [updateTime] passes [setTime] the year 2000 plus the year that
    [readDS3231time] decoded, whatever the device delivered; when the device
    delivers its seven registers, that is 2000 plus the decoded seventh
    byte. *)
Theorem updateTime_year :
  (forall w, exists t,
      systemTime (exec updateTime w) = Some t /\
      st_year t = 2000 + year (eval readDS3231time w)) /\
  (forall b0 b1 b2 b3 b4 b5 b6 rest w, exists t,
      systemTime
        (exec updateTime
              (delivering (b0 :: b1 :: b2 :: b3 :: b4 :: b5 :: b6 :: rest) w))
      = Some t /\
      st_year t = 2000 + bcdToDec (to_byte b6)).
Proof.
  assert (Hy : forall v, to_int (2000 + bcdToDec v) = 2000 + bcdToDec v).
  { intros v. pose proof (bcdToDec_range v). apply to_int_small. lia. }
  split.
  - intros w. unfold updateTime, readDS3231time.
    split_world w; run_io; eexists; (split; [reflexivity|]); cbn; apply Hy.
  - intros. unfold updateTime, readDS3231time. run_io.
    eexists; split; [reflexivity|]. cbn. apply Hy.
Qed.

(** ** Reading the temperature *)

Lemma temperature_agrees_all :
  forall_from 0 256 (fun msb => forall_from 0 256 (temperature_agrees msb)) = true.
Proof. vm_compute. reflexivity. Qed.

(** C5: for raw bytes [msb] and [lsb], the byte that [readDS3231temperature]
    stores is the two's-complement value of [msb] plus a quarter of a degree
    per unit of the top two bits of [lsb], truncated into a byte; the sign
    extension of the code is the two's-complement reading of [msb]. *)
Theorem readDS3231temperature_value (msb lsb : Z) (rest : list Z) (w : World) :
  is_byte msb -> is_byte lsb ->
  nint_of msb = twos_complement8 msb /\
  eval readDS3231temperature (delivering (msb :: lsb :: rest) w) =
    double_to_byte (spec_temperature msb lsb) /\
  eval readDS3231temperature (delivering (msb :: lsb :: rest) w) =
    stored_temperature msb lsb.
Proof.
  intros Hm Hl. unfold is_byte in *.
  pose proof (forall_from_spec _ _ _ temperature_agrees_all msb ltac:(simpl; lia)) as H.
  cbv beta in H.
  pose proof (forall_from_spec _ _ _ H lsb ltac:(simpl; lia)) as H'.
  unfold temperature_agrees in H'.
  apply andb_true_iff in H' as [H' H3]. apply andb_true_iff in H' as [H1 H2].
  apply Z.eqb_eq in H1, H2, H3.
  assert (E : eval readDS3231temperature (delivering (msb :: lsb :: rest) w)
              = temp_of_raw msb lsb).
  { unfold readDS3231temperature. run_io. reflexivity. }
  rewrite E. auto.
Qed.

(** A reading of -24.25 degrees is stored as 232, the byte of -24. *)
Lemma readDS3231temperature_value_below_zero :
  (is_byte 0xe7 /\ is_byte 0xc0) /\
  nint_of 0xe7 = twos_complement8 0xe7 /\
  eval readDS3231temperature (delivering [0xe7; 0xc0] power_on) =
    double_to_byte (spec_temperature 0xe7 0xc0) /\
  eval readDS3231temperature (delivering [0xe7; 0xc0] power_on) = 232.
Proof.
  assert (Hm : is_byte 0xe7) by (unfold is_byte; lia).
  assert (Hl : is_byte 0xc0) by (unfold is_byte; lia).
  split; [split; assumption|].
  exact (readDS3231temperature_value 0xe7 0xc0 [] power_on Hm Hl).
Defined.

(** ** The chase animation *)

#[local] Arguments Z.add : simpl never.
#[local] Arguments Z.sub : simpl never.
#[local] Arguments Z.opp : simpl never.
#[local] Arguments Z.modulo : simpl never.
#[local] Arguments Z.gtb : simpl never.
#[local] Arguments Z.ltb : simpl never.
#[local] Arguments Z.geb : simpl never.
#[local] Arguments Z.leb : simpl never.
#[local] Arguments Z.eqb : simpl never.

(** Turn the outcome of a comparison of the code into a fact for [lia]. *)
Ltac cmp_facts :=
  repeat match goal with
         | H : (_ >? _) = true |- _ => apply Z.gtb_gt in H
         | H : (_ >? _) = false |- _ => rewrite Z.gtb_ltb in H
         | H : (_ <? _) = true |- _ => apply Z.ltb_lt in H
         | H : (_ <? _) = false |- _ => apply Z.ltb_ge in H
         | H : (_ >=? _) = true |- _ => rewrite Z.geb_leb in H
         | H : (_ >=? _) = false |- _ => rewrite Z.geb_leb in H
         | H : (_ <=? _) = true |- _ => apply Z.leb_le in H
         | H : (_ <=? _) = false |- _ => apply Z.leb_gt in H
         | H : (_ =? _) = true |- _ => apply Z.eqb_eq in H
         | H : (_ =? _) = false |- _ => apply Z.eqb_neq in H
         | H : (_ || _) = true |- _ => apply orb_true_iff in H
         | H : (_ || _) = false |- _ => apply orb_false_iff in H as [? ?]
         | H : (_ && _) = true |- _ => apply andb_true_iff in H as [? ?]
         | H : (_ && _) = false |- _ => apply andb_false_iff in H
         | H : negb _ = true |- _ => apply negb_true_iff in H
         | H : negb _ = false |- _ => apply negb_false_iff in H
         end.

Lemma delay_ok_next d :
  delay_ok d -> delay_ok (if d <? 2000 then to_int (d + 20) else 20).
Proof.
  unfold delay_ok. intros [Hr Hm].
  destruct (d <? 2000) eqn:E; cmp_facts.
  - rewrite to_int_small by lia. split.
    + pose proof (Z.div_mod d 20 ltac:(lia)). lia.
    + replace (d + 20) with (d + 1 * 20) by lia.
      rewrite Z.mod_add by lia. exact Hm.
  - split; [lia | reflexivity].
Qed.

Lemma chaseStep_ok g : chase_ok g -> chase_ok (chaseStep g).
Proof.
  destruct g as [ls bs lbs st led dl rd clt ldt].
  unfold chase_ok, chaseStep, roundTrip, NUM_LEDS. cbn.
  intros (Hst & Hled & Hdl & Hrd).
  pose proof (delay_ok_next dl Hdl) as Hnext.
  destruct Hdl as [Hdr Hdm].
  destruct ((led >? 12 - 2) || (led <? 0)) eqn:Ert; cbn.
  - rewrite (to_int_small (rd + 1)) by lia.
    destruct (led >? 12 - 1) eqn:E11; cmp_facts; [lia|]. cbn.
    destruct (rd + 1 >? 20) eqn:Erd; cbn; cmp_facts.
    + rewrite (to_int_small (- st)) by lia.
      rewrite (to_int_small (12 - 1 + - st)) by lia.
      destruct ((12 - 1 + - st <? 12) && (12 - 1 + - st >=? 0)) eqn:Ein; cbn;
        [|destruct (- st >? 0) eqn:Ep; cbn]; cmp_facts;
        (split; [lia|]); (split; [lia|]); (split; [exact Hnext | lia]).
    + rewrite (to_int_small (12 - 1 + st)) by lia.
      destruct ((12 - 1 + st <? 12) && (12 - 1 + st >=? 0)) eqn:Ein; cbn;
        [|destruct (st >? 0) eqn:Ep; cbn]; cmp_facts;
        (split; [lia|]); (split; [lia|]); (split; [split; assumption | lia]).
  - cmp_facts.
    rewrite (to_int_small (led + st)) by lia.
    destruct ((led + st <? 12) && (led + st >=? 0)) eqn:Ein; cbn;
      [|destruct (st >? 0) eqn:Ep; cbn]; cmp_facts;
      (split; [lia|]); (split; [lia|]); (split; [split; assumption | lia]).
Qed.

(** The animation fields decide [chase_ok]. *)
Lemma chase_ok_same g g' :
  chStep g' = chStep g -> chLed g' = chLed g ->
  chDelay g' = chDelay g -> chRound g' = chRound g ->
  chase_ok g -> chase_ok g'.
Proof. unfold chase_ok. intros -> -> -> ->. exact (fun H => H). Qed.

Lemma debounce_keeps_chase i g :
  chStep (debounce i g) = chStep g /\ chLed (debounce i g) = chLed g /\
  chDelay (debounce i g) = chDelay g /\ chRound (debounce i g) = chRound g /\
  chLastTime (debounce i g) = chLastTime g.
Proof.
  unfold debounce.
  repeat match goal with
         | |- context [if ?b then _ else _] => destruct b
         end; cbn; auto.
Qed.

Lemma loop_ok i g : chase_ok g -> chase_ok (loop i g).
Proof.
  intros H. unfold loop.
  destruct (debounce_keeps_chase i g) as (E1 & E2 & E3 & E4 & _).
  assert (Hd : chase_ok (debounce i g)) by (apply (chase_ok_same g); assumption).
  apply (chase_ok_same (chase i (debounce i g))); try reflexivity.
  unfold chase.
  destruct (_ >? _); [|exact Hd].
  apply (chase_ok_same (chaseStep (debounce i g))); try reflexivity.
  now apply chaseStep_ok.
Qed.

Lemma initial_ok : chase_ok initial.
Proof.
  unfold chase_ok, delay_ok, initial, NUM_LEDS. cbn.
  repeat split; solve [lia | reflexivity].
Qed.

Lemma chaseRun_ok n g : chase_ok g -> chase_ok (chaseRun n g).
Proof.
  intros H. induction n as [|n IH]; [exact H|].
  change (chaseRun (S n) g) with (chaseStep (chaseRun n g)).
  now apply chaseStep_ok.
Qed.

Lemma run_ok ins : forall g, chase_ok g -> chase_ok (run ins g).
Proof.
  induction ins as [|i ins IH]; intros g H; [exact H|].
  apply IH. now apply loop_ok.
Qed.

(** C2: from the initial state the chase index [chLed] is within [0, 11]
    after any number of animation steps, and so after any passes of
    [loop()], whatever the button readings and the clock. *)
Theorem chLed_in_range :
  (forall n, 0 <= chLed (chaseRun n initial) <= 11) /\
  (forall ins, 0 <= chLed (run ins initial) <= 11).
Proof.
  split.
  - intros n. destruct (chaseRun_ok n initial initial_ok) as (_ & H & _).
    exact H.
  - intros ins. destruct (run_ok ins initial initial_ok) as (_ & H & _).
    exact H.
Qed.

Lemma chaseStep_delay g :
  chDelay (chaseStep g) =
  if reverses g
  then (if chDelay g <? 2000 then to_int (chDelay g + 20) else 20)
  else chDelay g.
Proof.
  destruct g as [ls bs lbs st led dl rd clt ldt].
  unfold chaseStep, reverses, roundTrip. cbn.
  destruct (_ || _); cbn; [destruct (_ >? 20); cbn|];
    destruct (_ && _); reflexivity.
Qed.

Lemma chaseStep_delay_ok g :
  delay_ok (chDelay g) ->
  chDelay (chaseStep g) =
    (if reverses g
     then (if chDelay g <? 2000 then chDelay g + 20 else 20)
     else chDelay g) /\
  delay_ok (chDelay (chaseStep g)).
Proof.
  intros H. rewrite chaseStep_delay.
  pose proof (delay_ok_next _ H) as Hn.
  destruct (reverses g); [|auto].
  destruct (chDelay g <? 2000) eqn:E; [|auto].
  destruct H as [[? ?] ?]. rewrite to_int_small in * by lia. auto.
Qed.

(** C4: [chDelay] is a multiple of 20 within [20, 2000] after any number of
    animation steps and after any passes of [loop()]; a step that reverses
    the direction replaces it by [chDelay + 20] when it is below 2000 and by
    20 otherwise, any other step leaves it, and every step keeps the
    property. *)
Theorem chDelay_multiple_of_20 :
  (forall n, delay_ok (chDelay (chaseRun n initial))) /\
  (forall ins, delay_ok (chDelay (run ins initial))) /\
  (forall g, delay_ok (chDelay g) ->
     chDelay (chaseStep g) =
       (if reverses g
        then (if chDelay g <? 2000 then chDelay g + 20 else 20)
        else chDelay g) /\
     delay_ok (chDelay (chaseStep g))).
Proof.
  split; [|split].
  - intros n. destruct (chaseRun_ok n initial initial_ok) as (_ & _ & H & _).
    exact H.
  - intros ins. destruct (run_ok ins initial initial_ok) as (_ & _ & H & _).
    exact H.
  - exact chaseStep_delay_ok.
Qed.

(** A reversal at the ceiling of 2000 returns the delay to 20. *)
Lemma chDelay_multiple_of_20_at_ceiling :
  chDelay (chaseStep (mkGlobals 1 0 0 1 11 2000 20 0 0)) = 20 /\
  delay_ok (chDelay (chaseStep (mkGlobals 1 0 0 1 11 2000 20 0 0))).
Proof.
  apply (proj2 (proj2 chDelay_multiple_of_20) (mkGlobals 1 0 0 1 11 2000 20 0 0)).
  unfold delay_ok. cbn. split; [lia | reflexivity].
Defined.

(** ** When the direction reverses *)

Lemma chaseRun_shift n g : chaseRun n (chaseStep g) = chaseRun (S n) g.
Proof. unfold chaseRun. symmetry. apply Nat.iter_succ_r. Qed.

Lemma roundTrips_add n : forall m g,
  roundTrips (n + m) g = (roundTrips n g + roundTrips m (chaseRun n g))%nat.
Proof.
  induction n as [|n IH]; intros m g; [reflexivity|].
  cbn [Nat.add roundTrips]. rewrite IH, chaseRun_shift. lia.
Qed.

Lemma roundTrips_mono n m g :
  (n <= m)%nat -> (roundTrips n g <= roundTrips m g)%nat.
Proof.
  intros H. replace m with (n + (m - n))%nat by lia.
  rewrite roundTrips_add. lia.
Qed.

Lemma heading_before_252 : forallb (heading_is (1, 20)) (seq 0 252) = true.
Proof. vm_compute. reflexivity. Qed.

Lemma heading_from_252 : forallb (heading_is (-1, 40)) (seq 252 252) = true.
Proof. vm_compute. reflexivity. Qed.

Lemma heading_is_true d n :
  heading_is d n = true ->
  chStep (chaseRun n initial) = fst d /\ chDelay (chaseRun n initial) = snd d.
Proof.
  unfold heading_is, heading. cbn [fst snd]. intros H.
  apply andb_true_iff in H as [H1 H2]. apply Z.eqb_eq in H1, H2. auto.
Qed.

Lemma chaseStep_reversal g :
  chase_ok g ->
  (reverses g = true <-> roundTrip g = true /\ chRound g = 20) /\
  chStep (chaseStep g) = (if reverses g then - chStep g else chStep g) /\
  chRound (chaseStep g) =
    (if reverses g then 0
     else if roundTrip g then chRound g + 1 else chRound g).
Proof.
  destruct g as [ls bs lbs st led dl rd clt ldt].
  unfold chase_ok, chaseStep, reverses, roundTrip, NUM_LEDS. cbn.
  intros (Hst & Hled & Hdl & Hrd).
  rewrite (to_int_small (rd + 1)) by lia.
  destruct ((led >? 12 - 2) || (led <? 0)) eqn:Ert; cbn.
  - destruct (rd + 1 >? 20) eqn:Erd; cbn; cmp_facts.
    + rewrite (to_int_small (- st)) by lia.
      destruct (_ && _); cbn; repeat split; auto; lia.
    + destruct (_ && _); cbn; repeat split; auto; try lia;
        intros; try discriminate; lia.
  - destruct (_ && _); cbn; repeat split; auto;
      intros; try discriminate; destruct H; discriminate.
Qed.

(** C3, as the code has it: the direction and the delay change on the step
    that counts the 21st round, the one that finds [chRound] at 20; there
    [chStep] changes sign, [chDelay] grows by 20 (or returns to 20 from 2000)
    and [chRound] returns to 0, and any other step leaves direction and delay
    alone and counts its round.  From the initial state, direction and delay
    are still +1 and 20 while at most 20 rounds are counted, and are -1 and
    40 once the 21st is. *)
Theorem reversal_on_21st_round :
  (forall n, (roundTrips n initial <= 20)%nat ->
     chStep (chaseRun n initial) = 1 /\ chDelay (chaseRun n initial) = 20) /\
  (forall n, roundTrips n initial = 21%nat ->
     chStep (chaseRun n initial) = -1 /\ chDelay (chaseRun n initial) = 40) /\
  (forall n, let g := chaseRun n initial in
     (reverses g = true <-> roundTrip g = true /\ chRound g = 20) /\
     chStep (chaseStep g) = (if reverses g then - chStep g else chStep g) /\
     chDelay (chaseStep g) =
       (if reverses g
        then (if chDelay g <? 2000 then chDelay g + 20 else 20)
        else chDelay g) /\
     chRound (chaseStep g) =
       (if reverses g then 0
        else if roundTrip g then chRound g + 1 else chRound g)).
Proof.
  split; [|split].
  - intros n Hn.
    assert (n < 252)%nat as Hlt.
    { destruct (Nat.lt_ge_cases n 252) as [|Hge]; [assumption|].
      pose proof (roundTrips_mono 252 n initial Hge) as Hm.
      replace (roundTrips 252 initial) with 21%nat in Hm
        by (vm_compute; reflexivity).
      lia. }
    apply (heading_is_true (1, 20)).
    apply (proj1 (forallb_forall _ _) heading_before_252).
    apply in_seq. lia.
  - intros n Hn.
    assert (252 <= n < 504)%nat as Hlt.
    { split.
      - destruct (Nat.lt_ge_cases n 252) as [Hlt|]; [|assumption].
        pose proof (roundTrips_mono n 251 initial ltac:(lia)) as Hm.
        replace (roundTrips 251 initial) with 20%nat in Hm
          by (vm_compute; reflexivity).
        lia.
      - destruct (Nat.lt_ge_cases n 504) as [|Hge]; [assumption|].
        pose proof (roundTrips_mono 504 n initial Hge) as Hm.
        replace (roundTrips 504 initial) with 42%nat in Hm
          by (vm_compute; reflexivity).
        lia. }
    apply (heading_is_true (-1, 40)).
    apply (proj1 (forallb_forall _ _) heading_from_252).
    apply in_seq. lia.
  - intros n g.
    pose proof (chaseRun_ok n initial initial_ok) as Hok. fold g in Hok.
    destruct (chaseStep_reversal g Hok) as (H1 & H2 & H3).
    destruct Hok as (_ & _ & Hd & _).
    destruct (chaseStep_delay_ok g Hd) as [H4 _].
    auto.
Qed.

(** The 252nd step counts the 21st round and reverses the chase. *)
Lemma reversal_on_21st_round_first :
  roundTrips 252 initial = 21%nat /\
  chStep (chaseRun 252 initial) = -1 /\ chDelay (chaseRun 252 initial) = 40.
Proof.
  assert (H : roundTrips 252 initial = 21%nat) by (vm_compute; reflexivity).
  split; [exact H|].
  exact (proj1 (proj2 reversal_on_21st_round) 252%nat H).
Defined.

(** The 240th step counts the 20th round, and leaves the direction at +1 and
    the delay at 20: twenty round trips do not reverse the chase. *)
Lemma no_reversal_after_20_rounds :
  roundTrips 239 initial = 19%nat /\
  roundTrip (chaseRun 239 initial) = true /\
  roundTrips 240 initial = 20%nat /\
  chRound (chaseRun 240 initial) = 20 /\
  chStep (chaseRun 240 initial) = 1 /\
  chDelay (chaseRun 240 initial) = 20.
Proof. vm_compute. repeat split; reflexivity. Qed.

(** ** The debounced button *)

Lemma clock_snoc t0 ins b : clock t0 (ins ++ [b]) = atChaseEnd b.
Proof. unfold clock. rewrite fold_left_app. reflexivity. Qed.

Lemma run_snoc ins b g : run (ins ++ [b]) g = loop b (run ins g).
Proof. unfold run. rewrite fold_left_app. reflexivity. Qed.

Lemma chronological_app xs : forall t0 ys,
  chronological t0 (xs ++ ys) =
  chronological t0 xs && chronological (clock t0 xs) ys.
Proof.
  induction xs as [|x xs IH]; intros t0 ys; [reflexivity|].
  cbn [app chronological]. rewrite IH, andb_assoc. reflexivity.
Qed.

Lemma chronological_snoc t0 xs b :
  chronological t0 (xs ++ [b]) = true ->
  chronological t0 xs = true /\
  clock t0 xs <= atChange b <= atDebounce b /\
  atDebounce b <= atChaseEnd b.
Proof.
  rewrite chronological_app. cbn [chronological].
  rewrite andb_true_r. intros H. cmp_facts. repeat split; auto; lia.
Qed.

Lemma chronological_bounds ins : forall t0,
  chronological t0 ins = true ->
  t0 <= clock t0 ins /\
  forall a, In a ins -> t0 <= atChange a /\ atDebounce a <= clock t0 ins.
Proof.
  induction ins as [|i ins IH]; intros t0 H.
  - split; [unfold clock; cbn; lia | intros a []].
  - cbn [chronological] in H. cmp_facts.
    destruct (IH (atChaseEnd i)) as [Hclock Hin]; [assumption|].
    change (clock t0 (i :: ins)) with (clock (atChaseEnd i) ins).
    split; [lia|].
    intros a [<-|Ha]; [lia|].
    destruct (Hin a Ha). lia.
Qed.

Lemma chaseStep_keeps_button g :
  ledState (chaseStep g) = ledState g /\
  buttonState (chaseStep g) = buttonState g /\
  lastDebounceTime (chaseStep g) = lastDebounceTime g.
Proof.
  unfold chaseStep.
  repeat match goal with
         | |- context [if ?c then _ else _] => destruct c
         end; cbn; auto.
Qed.

Lemma loop_button b g :
  lastDebounceTime (loop b g) = debounceFrom b g /\
  lastButtonState (loop b g) = reading b /\
  buttonState (loop b g) = (if accepted b g then reading b else buttonState g) /\
  ledState (loop b g) =
    (if accepted b g && (reading b =? HIGH)
     then not_int (ledState g) else ledState g).
Proof.
  unfold loop, chase.
  assert (H : lastDebounceTime (debounce b g) = debounceFrom b g /\
              buttonState (debounce b g) =
                (if accepted b g then reading b else buttonState g) /\
              ledState (debounce b g) =
                (if accepted b g && (reading b =? HIGH)
                 then not_int (ledState g) else ledState g)).
  { unfold debounce, accepted, debounceFrom, changed.
    destruct (negb (reading b =? lastButtonState g)); cbn;
      destruct (_ >? debounceDelay); cbn; auto;
      destruct (negb (reading b =? buttonState g)); cbn; auto;
      destruct (reading b =? HIGH); cbn; auto. }
  destruct H as (H1 & H2 & H3).
  destruct (chaseStep_keeps_button (debounce b g)) as (K1 & K2 & K3).
  destruct (_ >? _); cbn; rewrite ?K1, ?K2, ?K3; auto.
Qed.

Lemma not_int_differs x : not_int x <> x.
Proof. unfold not_int. destruct (x =? 0) eqn:E; cmp_facts; lia. Qed.

Lemma toggles_iff b g :
  toggles b g = true <-> accepted b g = true /\ reading b = HIGH.
Proof.
  unfold toggles. destruct (loop_button b g) as (_ & _ & _ & ->).
  pose proof (not_int_differs (ledState g)).
  destruct (accepted b g); cbn; destruct (reading b =? HIGH) eqn:E; cbn;
    cmp_facts; rewrite ?negb_true_iff, ?Z.eqb_neq, ?Z.eqb_refl; cbn;
    intuition (try discriminate; try lia).
Qed.

(** A pass accepts a reading only after more than [debounceDelay]
    milliseconds of true time since the start of the debounce timer. *)
Lemma accepted_elapsed b g L :
  debounceFrom b g = millis L -> L <= atDebounce b ->
  accepted b g = true ->
  debounceDelay < atDebounce b - L /\ reading b <> buttonState g.
Proof.
  unfold accepted. intros -> HL H. cmp_facts.
  pose proof (ulong_elapsed L (atDebounce b) HL). unfold millis in *.
  split; [lia | assumption].
Qed.

Lemma snoc_split {A} (p1 : list A) a p2 pre b :
  pre ++ [b] = p1 ++ a :: p2 ->
  (p1 = pre /\ a = b /\ p2 = []) \/
  (exists p2', p2 = p2' ++ [b] /\ pre = p1 ++ a :: p2').
Proof.
  intros H. destruct p2 as [|x p2] using rev_ind.
  - apply app_inj_tail in H as [-> ->]. now left.
  - right. exists p2. clear IHp2.
    change (pre ++ [b] = p1 ++ (a :: p2) ++ [x]) in H.
    rewrite app_assoc in H. apply app_inj_tail in H as [-> ->]. auto.
Qed.

Lemma button_inv_initial : button_inv [] initial.
Proof.
  exists 0. unfold clock. cbn. repeat split; try lia.
  - left. repeat split. constructor.
  - intros p1 a p2 H. destruct p1; discriminate H.
Qed.

Lemma button_inv_step pre b :
  chronological 0 (pre ++ [b]) = true ->
  button_inv pre (run pre initial) ->
  button_inv (pre ++ [b]) (loop b (run pre initial)).
Proof.
  intros Hc (L & HL & HLr & Hst & Hap).
  set (g := run pre initial) in *.
  destruct (chronological_snoc _ _ _ Hc) as (Hpre & Hb1 & Hb2).
  destruct (chronological_bounds pre 0 Hpre) as [_ Hin].
  destruct (loop_button b g) as (E1 & E2 & E3 & _).
  exists (if changed b g then atChange b else L).
  rewrite E1, clock_snoc.
  assert (HL' : debounceFrom b g = millis (if changed b g then atChange b else L)).
  { unfold debounceFrom. destruct (changed b g); auto. }
  split; [exact HL'|].
  split; [destruct (changed b g); lia|].
  split.
  - (* the readings since the timer was started *)
    unfold stable_since. rewrite E2.
    destruct (changed b g) eqn:Ech.
    + right. exists pre, b, []. repeat split. constructor; auto.
    + unfold changed in Ech. cmp_facts.
      destruct Hst as [(H0 & Hlow & Hall) | (p1 & c & p2 & Hp & Hc' & Hall)].
      * left. repeat split; [assumption | congruence |].
        apply Forall_app. split; [assumption|].
        constructor; [congruence | constructor].
      * right. exists p1, c, (p2 ++ [b]). repeat split.
        -- rewrite Hp, <- app_assoc. reflexivity.
        -- assumption.
        -- change (c :: p2 ++ [b]) with ((c :: p2) ++ [b]).
           apply Forall_app. split.
           ++ eapply Forall_impl; [|exact Hall]. cbn. intros; congruence.
           ++ constructor; [reflexivity | constructor].
  - (* the toggles so far *)
    intros p1 a p2 Hsplit Htog. rewrite E2, E3, clock_snoc.
    destruct (snoc_split _ _ _ _ _ Hsplit) as [(-> & -> & ->) | (p2' & -> & Hp)].
    + apply toggles_iff in Htog as [Hacc Hhigh]. fold g in Hacc.
      rewrite Hacc. left. auto.
    + assert (Ha : atDebounce a <= clock 0 pre).
      { apply Hin. rewrite Hp. apply in_elt. }
      destruct (Hap p1 a p2' Hp Htog) as [[Hbs Hlast] | Hold]; [|right; lia].
      destruct (accepted b g) eqn:Hacc.
      * right.
        assert (Hle : (if changed b g then atChange b else L) <= atDebounce b)
          by (destruct (changed b g); lia).
        destruct (accepted_elapsed b g _ HL' Hle Hacc) as [Hel Hne].
        destruct (changed b g) eqn:Ech; [lia|].
        unfold changed in Ech. cmp_facts.
        destruct Hlast as [Hlast|Hlast]; [congruence | lia].
      * left. split; [assumption|].
        destruct (changed b g) eqn:Ech; [right; lia|].
        unfold changed in Ech. cmp_facts.
        destruct Hlast as [Hlast|Hlast]; [left; congruence | right; lia].
Qed.

Lemma button_inv_run pre :
  chronological 0 pre = true -> button_inv pre (run pre initial).
Proof.
  induction pre as [|b pre IH] using rev_ind; intros Hc.
  - exact button_inv_initial.
  - rewrite run_snoc. apply button_inv_step; [assumption|].
    apply IH. now destruct (chronological_snoc _ _ _ Hc).
Qed.

(** C6: whatever the readings, a pass toggles [ledState] only when its
    reading is [HIGH] and differs from the accepted [buttonState], and when
    the readings have been the same over a stretch of passes that spans more
    than [debounceDelay] milliseconds; and any earlier toggle lies more than
    [debounceDelay] milliseconds before it, so no two toggles fall within one
    debounce window. *)
Theorem toggle_once_per_window (pre : list Input) (b : Input) :
  chronological 0 (pre ++ [b]) = true ->
  toggles b (run pre initial) = true ->
  reading b = HIGH /\
  reading b <> buttonState (run pre initial) /\
  (exists p1 c p2,
      pre ++ [b] = p1 ++ c :: p2 /\
      Forall (fun a => reading a = reading b) (c :: p2) /\
      debounceDelay < atDebounce b - atChange c) /\
  (forall p1 a p2,
      pre = p1 ++ a :: p2 -> toggles a (run p1 initial) = true ->
      debounceDelay < atDebounce b - atDebounce a).
Proof.
  intros Hc Htog.
  destruct (chronological_snoc _ _ _ Hc) as (Hpre & Hb1 & Hb2).
  destruct (button_inv_run pre Hpre) as (L & HL & HLr & Hst & Hap).
  set (g := run pre initial) in *.
  apply toggles_iff in Htog as [Hacc Hhigh].
  assert (HL' : debounceFrom b g = millis (if changed b g then atChange b else L)).
  { unfold debounceFrom. destruct (changed b g); auto. }
  assert (Hle : (if changed b g then atChange b else L) <= atDebounce b)
    by (destruct (changed b g); lia).
  destruct (accepted_elapsed b g _ HL' Hle Hacc) as [Hel Hne].
  split; [assumption|]. split; [assumption|]. split.
  - destruct (changed b g) eqn:Ech.
    + exists pre, b, []. repeat split; [constructor; auto | assumption].
    + unfold changed in Ech. cmp_facts.
      destruct Hst as [(H0 & Hlow & Hall) | (p1 & c & p2 & Hp & Hc' & Hall)].
      * unfold HIGH, LOW in *. lia.
      * exists p1, c, (p2 ++ [b]). repeat split.
        -- rewrite Hp, <- app_assoc. reflexivity.
        -- change (c :: p2 ++ [b]) with ((c :: p2) ++ [b]).
           apply Forall_app. split.
           ++ eapply Forall_impl; [|exact Hall]. cbn. intros; congruence.
           ++ constructor; [reflexivity | constructor].
        -- lia.
  - intros p1 a p2 Hp Ha.
    destruct (Hap p1 a p2 Hp Ha) as [[Hbs _] | Hold]; [congruence | lia].
Qed.

(** On [press_release_press] followed by one more pass with the button
    held, the second and the sixth pass toggle the latch, four seconds
    apart. *)
Lemma toggle_once_per_window_press_twice :
  chronological 0 (press_release_press ++ [pass 1 5500]) = true /\
  toggles (pass 1 1500) (run [pass 1 10] initial) = true /\
  toggles (pass 1 5500) (run press_release_press initial) = true /\
  reading (pass 1 5500) = HIGH /\
  debounceDelay < atDebounce (pass 1 5500) - atDebounce (pass 1 1500).
Proof.
  assert (Hc : chronological 0 (press_release_press ++ [pass 1 5500]) = true)
    by (vm_compute; reflexivity).
  assert (H2 : toggles (pass 1 1500) (run [pass 1 10] initial) = true)
    by (vm_compute; reflexivity).
  assert (H6 : toggles (pass 1 5500) (run press_release_press initial) = true)
    by (vm_compute; reflexivity).
  destruct (toggle_once_per_window press_release_press (pass 1 5500) Hc H6)
    as (Hhigh & _ & _ & Hapart).
  split; [exact Hc|]. split; [exact H2|]. split; [exact H6|].
  split; [exact Hhigh|].
  exact (Hapart [pass 1 10] (pass 1 1500) [pass 0 2000; pass 0 3500; pass 1 4000]
                eq_refl H2).
Defined.

(** * Further properties of the code *)

(** ** The BCD conversion outside and inside its range *)

Lemma byte_cases (p : Z -> bool) :
  forall_from 0 256 p = true -> forall z, is_byte z -> p z = true.
Proof.
  intros H z Hz. apply (forall_from_spec _ _ _ H). unfold is_byte in Hz.
  simpl. lia.
Qed.

Lemma eqb_iff_of_bool (a b : bool) : Bool.eqb a b = true -> (a = true <-> b = true).
Proof. destruct a, b; cbn; intuition discriminate. Qed.

(** X1: on bytes, decoding the encoding gives the value back exactly for
    the values below 160: from 160 on the tens no longer fit the high
    nibble. *)
Theorem bcd_roundtrip_domain (d : Z) :
  is_byte d -> (bcdToDec (decToBcd d) = d <-> d < 160).
Proof.
  intros Hd.
  pose proof (byte_cases
    (fun d => Bool.eqb (bcdToDec (decToBcd d) =? d) (d <? 160))
    ltac:(vm_compute; reflexivity) d Hd) as H.
  apply eqb_iff_of_bool in H.
  rewrite Z.eqb_eq, Z.ltb_lt in H. exact H.
Qed.

(** The first value that does not survive. *)
Lemma bcd_roundtrip_domain_at_160 :
  is_byte 160 /\ bcdToDec (decToBcd 160) = 0 /\
  (bcdToDec (decToBcd 160) = 160 <-> 160 < 160).
Proof.
  assert (H : is_byte 160) by (unfold is_byte; lia).
  split; [exact H|]. split; [reflexivity|].
  exact (bcd_roundtrip_domain 160 H).
Defined.

(** X2: on bytes, encoding the decoding gives the byte back exactly when
    its low nibble is a decimal digit. *)
Theorem bcd_reencode (b : Z) :
  is_byte b -> (decToBcd (bcdToDec b) = b <-> b mod 16 <= 9).
Proof.
  intros Hb.
  pose proof (byte_cases
    (fun b => Bool.eqb (decToBcd (bcdToDec b) =? b) (b mod 16 <=? 9))
    ltac:(vm_compute; reflexivity) b Hb) as H.
  apply eqb_iff_of_bool in H.
  rewrite Z.eqb_eq, Z.leb_le in H. exact H.
Qed.

(** A register whose low nibble is no digit comes back six higher. *)
Lemma bcd_reencode_at_0x1a :
  is_byte 0x1a /\ decToBcd (bcdToDec 0x1a) = 0x20 /\
  (decToBcd (bcdToDec 0x1a) = 0x1a <-> 0x1a mod 16 <= 9).
Proof.
  assert (H : is_byte 0x1a) by (unfold is_byte; lia).
  split; [exact H|]. split; [reflexivity|].
  exact (bcd_reencode 0x1a H).
Defined.

(** X3: for a decimal value in [0, 99] the high nibble of the encoding is
    the tens digit and the low nibble the ones digit. *)
Theorem decToBcd_nibbles (d : Z) :
  0 <= d <= 99 ->
  Z.shiftr (decToBcd d) 4 = d / 10 /\ Z.land (decToBcd d) 0xf = d mod 10.
Proof.
  intros Hd.
  assert (H : forall_from 0 100 digits_in_nibbles = true)
    by (vm_compute; reflexivity).
  pose proof (forall_from_spec _ _ _ H d ltac:(simpl; lia)) as H'.
  unfold digits_in_nibbles in H'.
  apply andb_true_iff in H' as [H1 H2].
  apply Z.eqb_eq in H1, H2. auto.
Qed.

Lemma decToBcd_nibbles_at_47 :
  0 <= 47 <= 99 /\
  Z.shiftr (decToBcd 47) 4 = 4 /\ Z.land (decToBcd 47) 0xf = 7.
Proof.
  assert (H : 0 <= 47 <= 99) by lia.
  split; [exact H|]. exact (decToBcd_nibbles 47 H).
Defined.

(** ** Writing the time and reading it back *)

Lemma survives_masks_all v :
  0 <= v <= 99 ->
  bcdToDec (to_byte (Z.land (decToBcd v) 0x7f)) = v mod 80 /\
  bcdToDec (to_byte (Z.land (decToBcd v) 0x3f)) = v mod 40 /\
  bcdToDec (to_byte (decToBcd v)) = v.
Proof.
  intros Hv.
  assert (H : forall_from 0 100 survives_masks = true)
    by (vm_compute; reflexivity).
  pose proof (forall_from_spec _ _ _ H v ltac:(simpl; lia)) as H'.
  unfold survives_masks in H'.
  apply andb_true_iff in H' as [H' H3]. apply andb_true_iff in H' as [H1 H2].
  apply Z.eqb_eq in H1, H2, H3. auto.
Qed.

Lemma setDS3231time_registers s mi h dw dm mo y :
  registers (busLog (exec (setDS3231time s mi h dw dm mo y) power_on)) =
  [decToBcd s; decToBcd mi; decToBcd h; decToBcd dw; decToBcd dm;
   decToBcd mo; decToBcd y].
Proof.
  cbv -[decToBcd to_byte]. rewrite !decToBcd_byte. reflexivity.
Qed.

(** X4: when the device delivers the registers that [setDS3231time] wrote,
    [readDS3231time] returns the fields that were set, for fields in
    [0, 99], except that the seconds come back modulo 80 and the hours
    modulo 40, the masks cutting the tens above 7 and above 3. *)
Theorem set_then_read (s mi h dw dm mo y : Z) (w : World) :
  Forall (fun v => 0 <= v <= 99) [s; mi; h; dw; dm; mo; y] ->
  eval readDS3231time
       (delivering
          (registers (busLog (exec (setDS3231time s mi h dw dm mo y) power_on)))
          w) =
  {| second := s mod 80; minute := mi; hour := h mod 40;
     dayOfWeek := dw; dayOfMonth := dm; month := mo; year := y |}.
Proof.
  intros Hf.
  repeat match goal with
         | H : Forall _ (_ :: _) |- _ => inversion H; clear H; subst
         end.
  rewrite setDS3231time_registers.
  unfold readDS3231time. run_io.
  repeat match goal with
         | H : 0 <= ?v <= 99 |- _ =>
             destruct (survives_masks_all v H) as (? & ? & ?); clear H
         end.
  change 127 with 0x7f. change 63 with 0x3f.
  congruence.
Qed.

Lemma set_then_read_at_noon :
  eval readDS3231time
       (delivering
          (registers (busLog (exec (setDS3231time 30 15 12 3 24 6 21) power_on)))
          power_on) =
  {| second := 30; minute := 15; hour := 12;
     dayOfWeek := 3; dayOfMonth := 24; month := 6; year := 21 |}.
Proof.
  apply (set_then_read 30 15 12 3 24 6 21 power_on).
  repeat constructor; lia.
Defined.

(** ** A device that does not answer *)

(** The fields in terms of what the seven reads return. *)
Lemma readDS3231time_raw (w : World) :
  eval readDS3231time w =
  {| second := bcdToDec (to_byte (Z.land (nth 0 (slave w) (-1)) 0x7f));
     minute := bcdToDec (to_byte (nth 1 (slave w) (-1)));
     hour := bcdToDec (to_byte (Z.land (nth 2 (slave w) (-1)) 0x3f));
     dayOfWeek := bcdToDec (to_byte (nth 3 (slave w) (-1)));
     dayOfMonth := bcdToDec (to_byte (nth 4 (slave w) (-1)));
     month := bcdToDec (to_byte (nth 5 (slave w) (-1)));
     year := bcdToDec (to_byte (nth 6 (slave w) (-1))) |}.
Proof.
  unfold readDS3231time. split_world w; run_io; reflexivity.
Qed.

(** X5: a byte that the device does not deliver is read as [-1]: the
    fields are decoded from [-1] where the seven bytes run out.  When the
    device delivers nothing, [readDS3231time] returns 85 seconds, 45 hours
    and 165 for every other field. *)
Theorem readDS3231time_missing_bytes (w : World) :
  let r k := nth k (slave w) (-1) in
  eval readDS3231time w =
  {| second := bcdToDec (to_byte (Z.land (r 0%nat) 0x7f));
     minute := bcdToDec (to_byte (r 1%nat));
     hour := bcdToDec (to_byte (Z.land (r 2%nat) 0x3f));
     dayOfWeek := bcdToDec (to_byte (r 3%nat));
     dayOfMonth := bcdToDec (to_byte (r 4%nat));
     month := bcdToDec (to_byte (r 5%nat));
     year := bcdToDec (to_byte (r 6%nat)) |} /\
  (slave w = [] ->
   eval readDS3231time w =
   {| second := 85; minute := 165; hour := 45; dayOfWeek := 165;
      dayOfMonth := 165; month := 165; year := 165 |}).
Proof.
  cbv zeta. split; [apply readDS3231time_raw|].
  intros E. rewrite readDS3231time_raw, E. reflexivity.
Qed.

Lemma readDS3231time_missing_bytes_at_power_on :
  eval readDS3231time power_on =
  {| second := 85; minute := 165; hour := 45; dayOfWeek := 165;
     dayOfMonth := 165; month := 165; year := 165 |}.
Proof.
  exact (proj2 (readDS3231time_missing_bytes power_on) eq_refl).
Defined.

Lemma decoded_within_all x :
  0 <= bcdToDec (to_byte x) <= 165 /\
  0 <= bcdToDec (to_byte (Z.land x 0x7f)) <= 85 /\
  0 <= bcdToDec (to_byte (Z.land x 0x3f)) <= 45.
Proof.
  assert (Hb : forall b, is_byte b -> decoded_within b = true)
    by (apply byte_cases; vm_compute; reflexivity).
  assert (Hm : forall n, 0 <= n <= 8 ->
            Z.land x (Z.ones n) = Z.land (to_byte x) (Z.ones n)).
  { intros n Hn. unfold to_byte. rewrite !Z.land_ones by lia.
    change 256 with (2 ^ 8). symmetry. apply Z.mod_mod_divide.
    exists (2 ^ (8 - n)). rewrite <- Z.pow_add_r by lia.
    replace (8 - n + n) with 8 by lia. reflexivity. }
  change 0x7f with (Z.ones 7). change 0x3f with (Z.ones 6).
  rewrite (Hm 7), (Hm 6) by lia.
  pose proof (Hb (to_byte x) (to_byte_range x)) as H.
  unfold decoded_within in H.
  apply andb_true_iff in H as [H H3]. apply andb_true_iff in H as [H1 H2].
  apply Z.leb_le in H1, H2, H3.
  pose proof (bcdToDec_range (to_byte x)).
  pose proof (bcdToDec_range (to_byte (Z.land (to_byte x) 0x7f))).
  pose proof (bcdToDec_range (to_byte (Z.land (to_byte x) 0x3f))).
  change (Z.ones 7) with 0x7f. change (Z.ones 6) with 0x3f.
  lia.
Qed.

(** [updateTime] passes on what [readDS3231time] returned. *)
Lemma updateTime_sets (w : World) :
  systemTime (exec updateTime w) =
  Some (let t := eval readDS3231time w in
        mkSetTime (hour t) (minute t) (second t) (dayOfMonth t) (month t)
                  (to_int (2000 + year t))).
Proof.
  unfold updateTime, readDS3231time. split_world w; run_io; reflexivity.
Qed.

(** X6: [updateTime] always sets the system time, checking nothing: the
    year it sets is within [2000, 2165], the hour within [0, 45], the
    seconds within [0, 85], and minute, day and month within [0, 165].
    When the device delivers nothing, it sets 45:165:85 on day 165 of month
    165 of the year 2165. *)
Theorem updateTime_unchecked (w : World) :
  exists t,
    systemTime (exec updateTime w) = Some t /\
    2000 <= st_year t <= 2165 /\ 0 <= st_hr t <= 45 /\
    0 <= st_sec t <= 85 /\ 0 <= st_min t <= 165 /\
    0 <= st_day t <= 165 /\ 0 <= st_month t <= 165 /\
    (slave w = [] -> t = mkSetTime 45 165 85 165 165 2165).
Proof.
  eexists. split; [apply updateTime_sets|].
  rewrite readDS3231time_raw. cbn [hour minute second dayOfMonth month year
    st_year st_hr st_sec st_min st_day st_month].
  pose proof (decoded_within_all (nth 0 (slave w) (-1))) as (_ & H0 & _).
  pose proof (decoded_within_all (nth 1 (slave w) (-1))) as (H1 & _ & _).
  pose proof (decoded_within_all (nth 2 (slave w) (-1))) as (_ & _ & H2).
  pose proof (decoded_within_all (nth 4 (slave w) (-1))) as (H4 & _ & _).
  pose proof (decoded_within_all (nth 5 (slave w) (-1))) as (H5 & _ & _).
  pose proof (decoded_within_all (nth 6 (slave w) (-1))) as (H6 & _ & _).
  rewrite to_int_small by lia.
  repeat split; try lia.
  intros E. rewrite E. reflexivity.
Qed.

(** With no answer from the device the clock is set to 45:165:85 in 2165. *)
Lemma updateTime_unchecked_at_power_on :
  exists t,
    systemTime (exec updateTime power_on) = Some t /\
    t = mkSetTime 45 165 85 165 165 2165.
Proof.
  destruct (updateTime_unchecked power_on) as (t & Ht & _ & _ & _ & _ & _ & _ & E).
  exists t. split; [exact Ht | exact (E eq_refl)].
Defined.

Lemma readDS3231temperature_raw (w : World) :
  eval readDS3231temperature w =
  temp_of_raw (nth 0 (slave w) (-1)) (nth 1 (slave w) (-1)).
Proof.
  unfold readDS3231temperature. split_world w; run_io; reflexivity.
Qed.

(** X7: the temperature too is computed from [-1] where bytes are missing;
    when the device delivers nothing, [readDS3231temperature] stores 62. *)
Theorem readDS3231temperature_missing_bytes (w : World) :
  eval readDS3231temperature w =
    temp_of_raw (nth 0 (slave w) (-1)) (nth 1 (slave w) (-1)) /\
  (slave w = [] -> eval readDS3231temperature w = 62).
Proof.
  split; [apply readDS3231temperature_raw|].
  intros E. rewrite readDS3231temperature_raw, E. reflexivity.
Qed.

Lemma readDS3231temperature_missing_bytes_at_power_on :
  eval readDS3231temperature power_on = 62.
Proof.
  exact (proj2 (readDS3231temperature_missing_bytes power_on) eq_refl).
Defined.

(** ** The chase animation, step by step *)

(** X8: whatever the state, also one that no run reaches, an animation
    step leaves the chase index within [0, 11]. *)
Theorem chaseStep_recovers (g : Globals) :
  0 <= chLed (chaseStep g) <= 11.
Proof.
  unfold chaseStep, NUM_LEDS.
  repeat match goal with
         | |- context [if ?c then _ else _] => destruct c eqn:?
         end; cbn in *; cmp_facts; lia.
Qed.

Lemma Globals_eqb_eq a b : Globals_eqb a b = true -> a = b.
Proof.
  destruct a, b. unfold Globals_eqb. cbn. intros H.
  repeat (apply andb_true_iff in H as [H ?]).
  cmp_facts. subst. reflexivity.
Qed.

Lemma along_spec p k : forall z g,
  along p k z g = true ->
  forall j, (j < k)%nat -> p (z + Z.of_nat j) (chaseRun j g) = true.
Proof.
  induction k as [|k IH]; intros z g H j Hj; [lia|].
  cbn [along] in H. apply andb_true_iff in H as [H0 H1].
  destruct j as [|j].
  - replace (z + Z.of_nat 0) with z by lia. exact H0.
  - rewrite <- chaseRun_shift.
    replace (z + Z.of_nat (S j)) with (z + 1 + Z.of_nat j) by lia.
    apply IH; [assumption | lia].
Qed.

Lemma chaseRun_add a b g : chaseRun (a + b) g = chaseRun a (chaseRun b g).
Proof. unfold chaseRun. apply Nat.iter_add. Qed.

Lemma chaseRun_period_initial : chaseRun chase_period initial = initial.
Proof. vm_compute. reflexivity. Qed.

Lemma chaseRun_periods k : forall n,
  chaseRun (n + k * chase_period) initial = chaseRun n initial.
Proof.
  induction k as [|k IH]; intros n.
  - f_equal. lia.
  - replace (n + S k * chase_period)%nat
      with ((n + k * chase_period) + chase_period)%nat by lia.
    rewrite chaseRun_add, chaseRun_period_initial. apply IH.
Qed.

Lemma chart_periods z k :
  0 <= k ->
  (z + k * 25200) / 252 = z / 252 + k * 100 /\
  (z + k * 25200) mod 252 = z mod 252.
Proof.
  intros Hk.
  replace (z + k * 25200) with (z + (k * 100) * 252) by lia.
  split; [apply Z.div_add | apply Z.mod_add]; lia.
Qed.

Lemma chaseAt_periods z k : 0 <= k -> chaseAt (z + k * 25200) = chaseAt z.
Proof.
  intros Hk. unfold chaseAt.
  destruct (chart_periods z k Hk) as [-> ->].
  rewrite Z.even_add, Z.even_mul, Z.mod_add by lia.
  change (Z.even 100) with true. rewrite orb_true_r.
  destruct (Z.even (z / 252)); reflexivity.
Qed.

Lemma chase_charted_period :
  along as_charted chase_period 0 initial = true.
Proof. vm_compute. reflexivity. Qed.

Lemma chase_charted (n : nat) :
  chaseRun n initial = chaseAt (Z.of_nat n) /\
  reverses (chaseRun n initial) = (Z.of_nat n mod 252 =? 251).
Proof.
  pose proof (Nat.div_mod_eq n chase_period) as Hn.
  set (k := (n / chase_period)%nat) in *.
  set (m := (n mod chase_period)%nat) in *.
  assert (Hm : (m < chase_period)%nat)
    by (apply Nat.mod_upper_bound; discriminate).
  replace n with (m + k * chase_period)%nat by lia.
  rewrite chaseRun_periods.
  replace (Z.of_nat (m + k * chase_period))
    with (Z.of_nat m + Z.of_nat k * 25200)
    by (unfold chase_period; lia).
  rewrite chaseAt_periods by lia.
  destruct (chart_periods (Z.of_nat m) (Z.of_nat k) ltac:(lia)) as [_ ->].
  pose proof (along_spec _ _ _ _ chase_charted_period m Hm) as H.
  cbn [Z.add] in H. unfold as_charted in H.
  apply andb_true_iff in H as [H1 H2].
  apply Globals_eqb_eq in H1. apply eqb_prop in H2. auto.
Qed.

(** X9: after [n] animation steps from the initial state the globals are
    [chaseAt n]: the direction is +1 in the even and -1 in the odd stretches
    of 252 steps, the delay is 20 plus 20 for every stretch completed,
    modulo 100 stretches, the index is the step within the stretch modulo 12
    going up, or 10 minus it modulo 12 going down, and the round counter is
    the step within the stretch divided by 12.  So the animation repeats
    every 25200 steps. *)
Theorem chase_closed_form (n : nat) :
  chaseRun n initial = chaseAt (Z.of_nat n) /\
  chaseRun (n + chase_period) initial = chaseRun n initial.
Proof.
  split; [apply chase_charted|].
  apply (chaseRun_periods 1 n).
Qed.

(** X10: from the initial state the animation step reverses the direction
    exactly on every 252nd execution, the steps numbered 251, 503, ...
    counting from 0. *)
Theorem reversal_every_252_steps (n : nat) :
  reverses (chaseRun n initial) = true <-> Z.of_nat n mod 252 = 251.
Proof.
  destruct (chase_charted n) as [_ ->]. apply Z.eqb_eq.
Qed.

(** ** The button and the animation do not meet *)

Lemma chaseStep_same_chase g g' :
  same_chase g g' -> same_chase (chaseStep g) (chaseStep g').
Proof.
  destruct g, g'. unfold same_chase. cbn.
  intros (-> & -> & -> & -> & ->).
  unfold chaseStep, roundTrip. cbn.
  destruct ((_ >? _) || (_ <? 0)); cbn;
    [destruct (to_int (_ + 1) >? 20); cbn|];
    repeat match goal with
           | |- context [if ?c then _ else _] => destruct c
           end; cbn; auto.
Qed.

Lemma loop_same_chase a b g g' :
  same_clocks a b -> same_chase g g' -> same_chase (loop a g) (loop b g').
Proof.
  intros [Hc He] (H1 & H2 & H3 & H4 & H5).
  destruct (debounce_keeps_chase a g) as (A1 & A2 & A3 & A4 & A5).
  destruct (debounce_keeps_chase b g') as (B1 & B2 & B3 & B4 & B5).
  assert (Hd : same_chase (debounce a g) (debounce b g'))
    by (unfold same_chase; repeat split; congruence).
  pose proof (chaseStep_same_chase _ _ Hd) as (S1 & S2 & S3 & S4 & S5).
  destruct Hd as (D1 & D2 & D3 & D4 & D5).
  unfold loop, chase. rewrite Hc, He, D3, D5.
  destruct (_ >? _); unfold same_chase; cbn; auto.
Qed.

(** X11: the animation never looks at the button: two runs of [loop()]
    from states that agree on the animation's variables, over passes that see
    the same clock at the animation's two calls of [millis()], end in states
    that agree on the animation's variables, whatever the readings were. *)
Theorem chase_ignores_button (ins ins' : list Input) (g g' : Globals) :
  Forall2 same_clocks ins ins' ->
  same_chase g g' ->
  same_chase (run ins g) (run ins' g').
Proof.
  intros H. revert g g'.
  induction H as [|a b ins ins' Hab _ IH]; intros g g' Hg; [exact Hg|].
  apply IH. now apply loop_same_chase.
Qed.

Lemma chase_ignores_button_pressed_or_not :
  same_chase (run [pass 1 10; pass 1 1500] initial)
             (run [pass 0 10; pass 0 1500] initial).
Proof.
  apply chase_ignores_button.
  - repeat constructor.
  - repeat split.
Defined.

(** ** The latch *)

Lemma loop_keeps_latch b g :
  reading b <> HIGH \/ reading b = buttonState g ->
  ledState (loop b g) = ledState g /\
  (buttonState g = HIGH -> reading b = HIGH -> buttonState (loop b g) = HIGH).
Proof.
  intros H. destruct (loop_button b g) as (_ & _ & -> & ->).
  unfold accepted.
  destruct (_ >? debounceDelay); cbn;
    destruct (reading b =? buttonState g) eqn:E1; cbn;
    destruct (reading b =? HIGH) eqn:E2; cbn; cmp_facts;
    split; try reflexivity; try congruence; destruct H; congruence.
Qed.

(** X12: the latch toggles only on a reading equal to [HIGH], that is 1:
    over passes none of which reads exactly 1, whatever the clock and
    whatever the state, [ledState] stays as it was. *)
Theorem no_toggle_without_HIGH (ins : list Input) (g : Globals) :
  Forall (fun a => reading a <> HIGH) ins ->
  ledState (run ins g) = ledState g.
Proof.
  intros H. revert g.
  induction H as [|a ins Ha _ IH]; intros g; [reflexivity|].
  cbn [run fold_left]. change (fold_left _ ins ?x) with (run ins x).
  rewrite IH. apply loop_keeps_latch. now left.
Qed.

(** A button read as 1023 for five seconds leaves the latch alone. *)
Lemma no_toggle_without_HIGH_at_full_scale :
  ledState (run [pass 1023 10; pass 1023 2000; pass 1023 5000] initial) = HIGH.
Proof.
  apply (no_toggle_without_HIGH [pass 1023 10; pass 1023 2000; pass 1023 5000]
                                initial).
  repeat constructor; discriminate.
Defined.

(** X13: a held button does not repeat: once [HIGH] is the accepted state,
    passes that all read [HIGH] leave the latch alone and [HIGH] accepted,
    however long they last. *)
Theorem held_button_toggles_no_more (ins : list Input) (g : Globals) :
  buttonState g = HIGH ->
  Forall (fun a => reading a = HIGH) ins ->
  ledState (run ins g) = ledState g /\ buttonState (run ins g) = HIGH.
Proof.
  intros Hg H. revert g Hg.
  induction H as [|a ins Ha _ IH]; intros g Hg; [auto|].
  cbn [run fold_left]. change (fold_left _ ins ?x) with (run ins x).
  destruct (loop_keeps_latch a g) as [H1 H2]; [right; congruence|].
  destruct (IH (loop a g)) as [H3 H4]; [auto|].
  split; congruence.
Qed.

Lemma held_button_toggles_no_more_for_a_minute :
  ledState (run [pass 1 2000; pass 1 30000; pass 1 60000]
                (run [pass 1 10; pass 1 1500] initial)) = LOW /\
  buttonState (run [pass 1 2000; pass 1 30000; pass 1 60000]
                   (run [pass 1 10; pass 1 1500] initial)) = HIGH.
Proof.
  apply (held_button_toggles_no_more
           [pass 1 2000; pass 1 30000; pass 1 60000]
           (run [pass 1 10; pass 1 1500] initial)).
  - reflexivity.
  - repeat constructor.
Defined.

Lemma toggles_flips b g :
  ledState (loop b g) =
  if toggles b g then not_int (ledState g) else ledState g.
Proof.
  unfold toggles. destruct (loop_button b g) as (_ & _ & _ & ->).
  destruct (accepted b g && (reading b =? HIGH)).
  - pose proof (not_int_differs (ledState g)) as H.
    apply Z.eqb_neq in H. rewrite H. reflexivity.
  - rewrite Z.eqb_refl. reflexivity.
Qed.

(** X14: the latch counts the toggles modulo two: after any run from the
    initial state [ledState] is [HIGH] when an even number of passes toggled
    it and [LOW] otherwise; it holds no other value. *)
Theorem latch_parity (ins : list Input) :
  ledState (run ins initial) =
  if Nat.even (toggle_count ins initial) then HIGH else LOW.
Proof.
  assert (H : forall ins g,
             ledState g = HIGH \/ ledState g = LOW ->
             ledState (run ins g) =
             if Bool.eqb (Nat.even (toggle_count ins g)) (ledState g =? HIGH)
             then HIGH else LOW).
  { clear ins. induction ins as [|a ins IH]; intros g Hg.
    - cbn. destruct Hg as [-> | ->]; reflexivity.
    - cbn [run fold_left toggle_count].
      change (fold_left _ ins ?x) with (run ins x).
      pose proof (toggles_flips a g) as Hf.
      rewrite IH.
      + rewrite Hf.
        destruct (toggles a g);
          [change (1 + ?n)%nat with (S n); rewrite Nat.even_succ, <- Nat.negb_even|];
          cbn [Nat.add];
          destruct (Nat.even (toggle_count ins (loop a g)));
          destruct Hg as [-> | ->]; reflexivity.
      + rewrite Hf. destruct (toggles a g); [|assumption].
        destruct Hg as [-> | ->]; [right | left]; reflexivity. }
  rewrite (H ins initial) by (left; reflexivity).
  change (ledState initial =? HIGH) with true.
  destruct (Nat.even _); reflexivity.
Qed.

(** ** The LED outputs *)

Lemma for_each_ext (l : list Z) (f f' : Z -> Out) :
  (forall i, f i = f' i) -> for_each l f = for_each l f'.
Proof.
  intros H. induction l as [|i l IH]; [reflexivity|].
  cbn [for_each fold_right]. fold (for_each l f). fold (for_each l f').
  now rewrite H, IH.
Qed.

Lemma led_loop (level : Z -> Z) :
  for_each (range 0 NUM_LEDS) (fun i => digitalWriteLed i (level i)) =
  Some (led_writes level).
Proof. reflexivity. Qed.

Lemma pinsAfter_app a b pins :
  pinsAfter (a ++ b) pins = pinsAfter b (pinsAfter a pins).
Proof. unfold pinsAfter. apply fold_left_app. Qed.

Lemma led_writes_leds level pins :
  leds (pinsAfter (led_writes level) pins) = map level (range 0 NUM_LEDS).
Proof. reflexivity. Qed.

Lemma led_writes_list level :
  led_writes level =
  [DigitalWrite 2 (level 0); DigitalWrite 3 (level 1);
   DigitalWrite 4 (level 2); DigitalWrite 5 (level 3);
   DigitalWrite 6 (level 4); DigitalWrite 7 (level 5);
   DigitalWrite 8 (level 6); DigitalWrite 9 (level 7);
   DigitalWrite 10 (level 8); DigitalWrite 11 (level 9);
   DigitalWrite 12 (level 10); DigitalWrite 13 (level 11)].
Proof. reflexivity. Qed.

Lemma led_writes_elsewhere level pins q :
  q < 2 \/ 13 < q -> pinsAfter (led_writes level) pins q = pins q.
Proof.
  intros Hq. rewrite led_writes_list.
  unfold pinsAfter. cbn [fold_left apply_event]. unfold write_pin.
  repeat match goal with
         | |- context [if ?c then _ else _] => destruct c eqn:?
         end; cmp_facts; try lia; reflexivity.
Qed.

Lemma setOnlyLed_events n :
  setOnlyLed n =
  Some ((if n =? 0 then [Println] else [])
        ++ [PrintNum n; Print ", "%string]
        ++ led_writes (fun i => if n =? i then HIGH else LOW)).
Proof.
  unfold setOnlyLed.
  rewrite (for_each_ext _ _
             (fun i => digitalWriteLed i (if n =? i then HIGH else LOW)))
    by (intros i; destruct (n =? i); reflexivity).
  rewrite led_loop. destruct (n =? 0); reflexivity.
Qed.

Lemma pinsAfter_prints n level pins :
  pinsAfter ((if n =? 0 then [Println] else [])
             ++ [PrintNum n; Print ", "%string] ++ led_writes level) pins =
  pinsAfter (led_writes level) pins.
Proof. destruct (n =? 0); reflexivity. Qed.

(** X15: [setOnlyLed(n)] never reads outside [LED_PIN]; after it the LED
    at position [n] is on and the other eleven are off (all twelve are off
    when [n] is no position), every other pin is as before, and no time was
    spent waiting. *)
Theorem setOnlyLed_lights (n : Z) (pins : Pins) :
  exists evs,
    setOnlyLed n = Some evs /\
    leds (pinsAfter evs pins) = lit (Z.eqb n) /\
    (forall q, q < 2 \/ 13 < q -> pinsAfter evs pins q = pins q) /\
    duration evs = 0.
Proof.
  eexists. split; [apply setOnlyLed_events|].
  rewrite pinsAfter_prints. split; [|split].
  - apply led_writes_leds.
  - intros q Hq. now apply led_writes_elsewhere.
  - destruct (n =? 0); reflexivity.
Qed.

(** X16: [setAllLed(on)], for [on] one of [LOW] and [HIGH], never reads
    outside [LED_PIN], sets the twelve LEDs to [on] and leaves every other
    pin as it was. *)
Theorem setAllLed_sets_all (on : Z) (pins : Pins) :
  on = LOW \/ on = HIGH ->
  exists evs,
    setAllLed on = Some evs /\
    leds (pinsAfter evs pins) = repeat on 12 /\
    (forall q, q < 2 \/ 13 < q -> pinsAfter evs pins q = pins q).
Proof.
  intros _.
  exists (led_writes (fun _ => on)). split; [reflexivity|]. split.
  - reflexivity.
  - intros q Hq. now apply led_writes_elsewhere.
Qed.

(** All LEDs off, from a board with every pin high. *)
Lemma setAllLed_sets_all_off :
  exists evs,
    setAllLed LOW = Some evs /\
    leds (pinsAfter evs (fun _ => HIGH)) = repeat LOW 12 /\
    (forall q, q < 2 \/ 13 < q -> pinsAfter evs (fun _ => HIGH) q = HIGH).
Proof.
  exact (setAllLed_sets_all LOW (fun _ => HIGH) (or_introl eq_refl)).
Defined.

Lemma lit_one n : 0 <= n <= 11 -> lit_count (lit (Z.eqb n)) = 1%nat.
Proof.
  intros H.
  assert (Hall : forall_from 0 12
                   (fun k => Nat.eqb (lit_count (lit (Z.eqb k))) 1) = true)
    by (vm_compute; reflexivity).
  apply Nat.eqb_eq.
  apply (forall_from_spec _ _ _ Hall n). simpl. lia.
Qed.

(** X17: a pass of [loop()] in a state that a run reaches from the initial
    state either leaves the LEDs as they are, when the animation step is not
    due, or leaves exactly one LED on, the one at the new [chLed]. *)
Theorem loop_lights_one_led (ins : list Input) (i : Input) (pins : Pins) :
  let g := run ins initial in
  exists evs,
    loop_outputs i g = Some evs /\
    if chase_due i g
    then leds (pinsAfter evs pins) = lit (Z.eqb (chLed (loop i g))) /\
         lit_count (leds (pinsAfter evs pins)) = 1%nat
    else leds (pinsAfter evs pins) = leds pins.
Proof.
  intros g.
  pose proof (loop_ok i g (run_ok ins initial initial_ok)) as (_ & Hled & _).
  destruct (debounce_keeps_chase i g) as (_ & _ & E3 & _ & E5).
  unfold loop_outputs, chase_due.
  assert (Hl : chLed (loop i g) =
               if to_ulong (millis (atChase i) - chLastTime g) >? to_ulong (chDelay g)
               then chLed (chaseStep (debounce i g)) else chLed (debounce i g)).
  { unfold loop, chase. rewrite E3, E5. destruct (_ >? _); reflexivity. }
  rewrite E3, E5.
  destruct (to_ulong (millis (atChase i) - chLastTime g) >? to_ulong (chDelay g)).
  - rewrite setOnlyLed_events, <- Hl.
    set (line := if _ >? debounceDelay then emit Println else nothing).
    set (shown := if reverses _ then _ else nothing).
    assert (exists a, line = Some a /\ forall p, pinsAfter a p = p) as (a & -> & Ha)
      by (subst line; destruct (_ >? _); eexists; split; reflexivity).
    assert (exists b, shown = Some b /\ forall p, pinsAfter b p = p) as (b & -> & Hb)
      by (subst shown; destruct (reverses _); eexists; split; reflexivity).
    eexists. split; [reflexivity|].
    rewrite !pinsAfter_app, Ha, Hb.
    rewrite led_writes_leds.
    change (map _ (range 0 NUM_LEDS)) with (lit (Z.eqb (chLed (loop i g)))).
    split; [reflexivity|]. apply lit_one. unfold NUM_LEDS in Hled. lia.
  - destruct (_ >? debounceDelay); eexists; split; reflexivity.
Qed.

(** ** Showing the time *)

Lemma same_list_eq {A} (eqb : A -> A -> bool) :
  (forall a b, eqb a b = true -> a = b) ->
  forall xs ys, same_list eqb xs ys = true -> xs = ys.
Proof.
  intros He xs. unfold same_list.
  induction xs as [|x xs IH]; intros [|y ys] H;
    apply andb_true_iff in H as [Hlen Hall];
    try discriminate Hlen; [reflexivity|].
  cbn [combine forallb fst snd] in Hall.
  apply andb_true_iff in Hall as [Hxy Hrest].
  rewrite (He x y Hxy). f_equal. apply IH.
  apply andb_true_iff. split; assumption.
Qed.

Lemma frame_eqb_eq a b : frame_eqb a b = true -> a = b.
Proof.
  destruct a as [la da], b as [lb db]. unfold frame_eqb. cbn [fst snd].
  intros H. apply andb_true_iff in H as [H1 H2].
  apply (same_list_eq Z.eqb) in H1; [|intros x y; apply Z.eqb_eq].
  apply Z.eqb_eq in H2. congruence.
Qed.

Lemma displayTime_as_framed_all (pins : Pins) :
  forall_from 0 24
    (fun hr => forall_from 0 60 (displayTime_as_framed pins hr)) = true.
Proof. vm_compute. reflexivity. Qed.

(** X18: for an hour in [0, 23] and a minute in [0, 59], [displayTime]
    never reads outside [LED_PIN], shows the frames of [displayTime_frames]
    for the hour modulo 12 and the minute divided by 5, so no hour LED at 12
    o'clock and no minute LED in the first five minutes, keeps the caller for
    32.2 seconds, and returns with all twelve LEDs on. *)
Theorem displayTime_shows (hr mn : Z) (pins : Pins) :
  0 <= hr < 24 -> 0 <= mn < 60 ->
  exists evs,
    displayTime hr mn = Some evs /\
    frames evs pins = displayTime_frames (hr mod 12) (mn / 5) /\
    duration evs = 32200 /\
    leds (pinsAfter evs pins) = all_on.
Proof.
  intros Hh Hm.
  pose proof (forall_from_spec _ _ _ (displayTime_as_framed_all pins) hr
                ltac:(simpl; lia)) as H.
  cbv beta in H.
  pose proof (forall_from_spec _ _ _ H mn ltac:(simpl; lia)) as H'.
  unfold displayTime_as_framed in H'.
  destruct (displayTime hr mn) as [evs|]; [|discriminate].
  exists evs. split; [reflexivity|].
  apply andb_true_iff in H' as [H' H3]. apply andb_true_iff in H' as [H1 H2].
  apply (same_list_eq frame_eqb frame_eqb_eq) in H1.
  apply Z.eqb_eq in H2.
  apply (same_list_eq Z.eqb) in H3; [|intros x y; apply Z.eqb_eq].
  auto.
Qed.

(** At 12:03 the five-second hour frame and the minute frame are dark. *)
Lemma displayTime_shows_at_noon :
  exists evs,
    displayTime 12 3 = Some evs /\
    nth 36 (frames evs (fun _ => LOW)) ([], 0) = (dark, 5000) /\
    nth 50 (frames evs (fun _ => LOW)) ([], 0) = (dark, 1000) /\
    duration evs = 32200.
Proof.
  destruct (displayTime_shows 12 3 (fun _ => LOW)) as (evs & E & F & D & _);
    [lia | lia |].
  exists evs. split; [exact E|]. rewrite F. split; [reflexivity|].
  split; [reflexivity | exact D].
Defined.

(** ** The mirrored chase *)

(** X19: in [displayChase] the LED at position [i] is paired with
    [LED_PIN[abs(NUM_LEDS - i)]], which is position [12 - i]: pin [14 - i]
    for [i] from 1 to 11, never position 0, and outside the array for
    [i = 0].  The first pass of the inner loop already reads outside
    [LED_PIN], so the function has no defined result. *)
Theorem displayChase_mirror :
  (forall i, 0 <= i < 12 ->
     LED_PIN_at (Z.abs (to_int (NUM_LEDS - i))) =
       if i =? 0 then None else Some (14 - i)) /\
  displayChase = None.
Proof.
  split; [|vm_compute; reflexivity].
  intros i Hi.
  assert (H : forall_from 0 12 mirrored_as_found = true)
    by (vm_compute; reflexivity).
  pose proof (forall_from_spec _ _ _ H i ltac:(simpl; lia)) as H'.
  unfold mirrored_as_found in H'.
  destruct (LED_PIN_at _) as [pin|]; destruct (i =? 0); cbn in H';
    try discriminate; [|reflexivity].
  apply Z.eqb_eq in H'. now subst.
Qed.

Lemma displayChase_mirror_at_1 :
  0 <= 1 < 12 /\
  LED_PIN_at (Z.abs (to_int (NUM_LEDS - 1))) = Some 13.
Proof.
  assert (H : 0 <= 1 < 12) by lia.
  split; [exact H|]. exact (proj1 displayChase_mirror 1 H).
Defined.

(** ** Start-up *)

(** X20: [setup()] makes the button pin an input and the two relay pins and
    the twelve LED pins outputs, sets the system time from the clock chip
    whatever the chip delivers, lights each LED alone for 300 ms in the order
    of the positions, flashes all twelve ten times (200 ms on, 500 ms off),
    and returns after 10.6 seconds of waiting with every LED off. *)
Theorem setup_behaviour (w : World) (pins : Pins) :
  (exists t, systemTime (fst (setup w)) = Some t) /\
  exists evs,
    snd (setup w) = Some evs /\
    pin_modes evs =
      (BUTTON_PIN, INPUT) :: (LEDSUP_PIN, OUTPUT) :: (FILTER_PIN, OUTPUT)
      :: map (fun p => (p, OUTPUT)) LED_PIN /\
    frames evs pins = setup_frames /\
    duration evs = 10600 /\
    leds (pinsAfter evs pins) = dark.
Proof.
  split.
  - unfold setup. cbn [fst]. unfold updateTime, readDS3231time.
    split_world w; run_io; eexists; reflexivity.
  - assert (H : setup_as_framed pins = true) by (vm_compute; reflexivity).
    unfold setup_as_framed in H. unfold setup. cbn [snd].
    destruct setup_outputs as [evs|]; [|discriminate].
    exists evs. split; [reflexivity|].
    apply andb_true_iff in H as [H Hmodes].
    apply andb_true_iff in H as [H Hdark].
    apply andb_true_iff in H as [Hframes Hwait].
    apply (same_list_eq frame_eqb frame_eqb_eq) in Hframes.
    apply Z.eqb_eq in Hwait.
    apply (same_list_eq Z.eqb) in Hdark; [|intros x y; apply Z.eqb_eq].
    apply same_list_eq in Hmodes.
    + auto.
    + intros [a1 a2] [b1 b2] Hab. cbn [fst snd] in Hab.
      apply andb_true_iff in Hab as [Ha Hb].
      apply Z.eqb_eq in Ha, Hb. congruence.
Qed.

(** ** Elapsed time across the wrap of the millisecond counter *)

Lemma ulong_elapsed_exact a b :
  0 <= b - a < 4294967296 -> to_ulong (to_ulong b - to_ulong a) = b - a.
Proof.
  intros H. unfold to_ulong.
  rewrite <- Zminus_mod. apply Z.mod_small. exact H.
Qed.

(** X21: a press that is held is honoured: when [HIGH] is not the accepted
    state, the reading is [HIGH] as in the pass before, and more than
    [debounceDelay] but less than 2^32 milliseconds of true time have passed
    since the debounce timer was started at the true time [L], the pass
    toggles the latch, also when the millisecond counter wrapped in
    between. *)
Theorem held_press_toggles (b : Input) (g : Globals) (L : Z) :
  lastDebounceTime g = millis L ->
  reading b = HIGH -> lastButtonState g = HIGH -> buttonState g <> HIGH ->
  debounceDelay < atDebounce b - L < 4294967296 ->
  toggles b g = true /\ ledState (loop b g) = not_int (ledState g).
Proof.
  intros HL Hr Hlast Hbs Hel.
  assert (Hacc : accepted b g = true).
  { unfold accepted, debounceFrom, changed, millis.
    rewrite Hr, Hlast, Z.eqb_refl. cbn [negb].
    rewrite HL. unfold millis.
    rewrite ulong_elapsed_exact by (unfold debounceDelay in Hel; lia).
    apply andb_true_iff. split.
    - apply Z.gtb_lt. lia.
    - apply negb_true_iff, Z.eqb_neq. congruence. }
  assert (Ht : toggles b g = true) by (apply toggles_iff; auto).
  split; [exact Ht|].
  rewrite toggles_flips, Ht. reflexivity.
Qed.

(** A press held across the wrap of the counter: the timer was started 500
    ms before the wrap and the pass comes 1000 ms after it. *)
Lemma held_press_toggles_across_wrap :
  toggles (pass 1 4294968296)
          (mkGlobals 1 0 1 1 0 20 0 0 (millis 4294966796)) = true /\
  ledState (loop (pass 1 4294968296)
                 (mkGlobals 1 0 1 1 0 20 0 0 (millis 4294966796))) = 0.
Proof.
  apply (held_press_toggles (pass 1 4294968296)
           (mkGlobals 1 0 1 1 0 20 0 0 (millis 4294966796)) 4294966796).
  - reflexivity.
  - reflexivity.
  - reflexivity.
  - discriminate.
  - cbn. unfold debounceDelay. lia.
Defined.

(** X22: the animation keeps its pace: with the delay within [20, 2000]
    and the last step taken at the true time [T], a pass takes the next step
    only when more than [chDelay] milliseconds of true time have passed, and
    does take it when more than [chDelay] and less than 2^32 have. *)
Theorem chase_pace (i : Input) (g : Globals) (T : Z) :
  delay_ok (chDelay g) ->
  chLastTime g = millis T -> T <= atChase i ->
  (chase_due i g = true -> chDelay g < atChase i - T) /\
  (chDelay g < atChase i - T < 4294967296 -> chase_due i g = true).
Proof.
  intros [[Hlo Hhi] _] HT Hle. unfold chase_due. rewrite HT. unfold millis.
  assert (Hd : to_ulong (chDelay g) = chDelay g)
    by (unfold to_ulong; apply Z.mod_small; lia).
  rewrite Hd. split.
  - intros H. apply Z.gtb_lt in H.
    pose proof (ulong_elapsed T (atChase i) Hle). lia.
  - intros H. rewrite ulong_elapsed_exact by lia.
    apply Z.gtb_lt. lia.
Qed.

Lemma chase_pace_at_start :
  chase_due (pass 0 25) initial = true /\ chDelay initial < 25 - 0.
Proof.
  assert (H : chase_due (pass 0 25) initial = true) by reflexivity.
  split; [exact H|].
  refine (proj1 (chase_pace (pass 0 25) initial 0 _ eq_refl _) H).
  - unfold delay_ok. cbn. split; [lia | reflexivity].
  - cbn. lia.
Defined.
